(** * c3chatbot: retrieval, intent routing, conversation memory and the
      safe query gateway of [c3chatbot.py], embedded in Rocq.

    Python [str] values are modelled as [string], a sequence of 8-bit
    characters read as the UTF-8 encoding of the text.  [lower] acts on the
    letters A-Z and [strip] on the ASCII white space of [str.isspace], which
    is what Python does on ASCII text.  Module-level mutable state ([convo])
    and the outside world (embedding and chat provider, ODBC database) are
    threaded explicitly through a state-and-exception monad. *)

From stdpp Require Import gmap strings list fin_maps.
From Stdlib Require Import ZArith Ascii.

Local Open Scope Z_scope.
Local Open Scope nat_scope.

(* ===================================================================== *)
(** * Python string primitives                                             *)
(* ===================================================================== *)

Module PyStr.

Definition is_upper (c : ascii) : bool :=
  let n := nat_of_ascii c in (65 <=? n) && (n <=? 90).

Definition lower_char (c : ascii) : ascii :=
  if is_upper c then ascii_of_nat (nat_of_ascii c + 32) else c.

(** [s.lower()] *)
Fixpoint lower (s : string) : string :=
  match s with
  | EmptyString => EmptyString
  | String c r => String (lower_char c) (lower r)
  end.

(** White space of [str.isspace] below 128: TAB, LF, VT, FF, CR, the four
    separators FS, GS, RS, US and the space. *)
Definition is_space (c : ascii) : bool :=
  let n := nat_of_ascii c in
  ((9 <=? n) && (n <=? 13)) || ((28 <=? n) && (n <=? 31)) || (n =? 32).

Fixpoint lstrip (s : string) : string :=
  match s with
  | EmptyString => EmptyString
  | String c r => if is_space c then lstrip r else s
  end.

Fixpoint rstrip (s : string) : string :=
  match s with
  | EmptyString => EmptyString
  | String c r =>
      match rstrip r with
      | EmptyString => if is_space c then EmptyString else String c EmptyString
      | r' => String c r'
      end
  end.

(** [s.strip()] *)
Definition strip (s : string) : string := rstrip (lstrip s).

(** [s.startswith(p)] *)
Fixpoint startswith (s p : string) {struct p} : bool :=
  match p, s with
  | EmptyString, _ => true
  | String _ _, EmptyString => false
  | String a p', String b s' => if Ascii.eqb a b then startswith s' p' else false
  end.

(** [w in txt] on two strings: [w] occurs as a contiguous substring. *)
Fixpoint contains (w txt : string) : bool :=
  startswith txt w ||
  match txt with
  | EmptyString => false
  | String _ r => contains w r
  end.

(** [sep.join(parts)] *)
Fixpoint join (sep : string) (parts : list string) : string :=
  match parts with
  | [] => EmptyString
  | [p] => p
  | p :: rest => p +:+ sep +:+ join sep rest
  end.

(** ** Facts about the primitives *)

Lemma app_cons (c : ascii) (a b : string) :
  String c a +:+ b = String c (a +:+ b).
Proof. reflexivity. Qed.

Lemma app_nil_l (s : string) : EmptyString +:+ s = s.
Proof. reflexivity. Qed.

Lemma lower_app (a b : string) : lower (a +:+ b) = lower a +:+ lower b.
Proof.
  induction a as [|c a IH]; [done |].
  rewrite app_cons. simpl. by rewrite IH, app_cons.
Qed.

Lemma lower_app_inv (m a b : string) :
  lower m = a +:+ b →
  ∃ m1 m2, m = m1 +:+ m2 ∧ lower m1 = a ∧ lower m2 = b.
Proof.
  revert m. induction a as [|c a IH]; intros m H.
  - by exists EmptyString, m.
  - rewrite app_cons in H. destruct m as [|d m]; simpl in H; [discriminate |].
    injection H as Hc Hr.
    destruct (IH _ Hr) as (m1 & m2 & -> & H1 & H2).
    exists (String d m1), m2. simpl. by rewrite Hc, H1.
Qed.

Lemma startswith_spec (s p : string) :
  startswith s p = true ↔ ∃ r, s = p +:+ r.
Proof.
  revert s. induction p as [|a p IH]; intros s; simpl.
  - split; [intros _; exists s; reflexivity | done].
  - destruct s as [|b s].
    + split; [done | intros [r Hr]; discriminate].
    + destruct (Ascii.eqb_spec a b) as [->|Hne].
      * rewrite IH. split; intros [r Hr]; exists r.
        -- by rewrite Hr.
        -- rewrite app_cons in Hr. by injection Hr.
      * split; [done |].
        intros [r Hr]. rewrite app_cons in Hr. injection Hr. congruence.
Qed.

Lemma contains_spec (w txt : string) :
  contains w txt = true ↔ ∃ a b, txt = a +:+ w +:+ b.
Proof.
  induction txt as [|c txt IH].
  - simpl. rewrite orb_false_r, startswith_spec. split.
    + intros [r Hr]. exists EmptyString, r. by rewrite app_nil_l.
    + intros (a & b & H). destruct a; [by exists b | discriminate].
  - cbn [contains]. rewrite orb_true_iff, startswith_spec, IH. split.
    + intros [[r Hr] | (a & b & H)].
      * exists EmptyString, r. by rewrite app_nil_l.
      * exists (String c a), b. by rewrite app_cons, H.
    + intros (a & b & H). destruct a as [|d a].
      * left. by exists b.
      * right. rewrite app_cons in H. injection H as _ H. by exists a, b.
Qed.

End PyStr.

(* ===================================================================== *)
(** * 5. Intent classifier                                                 *)
(* ===================================================================== *)

Definition cutoff_keywords : list string := ["cut-off"; "cutoff"; "pamutol"].
Definition billing_keywords : list string := ["bill"; "payment"; "balance"].
Definition outage_keywords : list string :=
  ["outage"; "brownout"; "no power"; "power situation"].

(** [any(w in txt for w in kws)] *)
Definition any_in (kws : list string) (txt : string) : bool :=
  existsb (fun w => PyStr.contains w txt) kws.

Definition intent (msg : string) : string :=
  let txt := PyStr.lower msg in
  if any_in cutoff_keywords txt then "cutoff"
  else if any_in billing_keywords txt then "billing"
  else if any_in outage_keywords txt then "outage"
  else "general".

(** A message mentions a keyword of [kws] when some contiguous part of it
    equals the keyword up to letter case. *)
Definition mentions (kws : list string) (msg : string) : Prop :=
  ∃ w pre s post, w ∈ kws ∧ PyStr.lower s = w ∧ msg = pre +:+ s +:+ post.

Lemma any_in_mentions (kws : list string) (msg : string) :
  any_in kws (PyStr.lower msg) = true ↔ mentions kws msg.
Proof.
  unfold any_in, mentions. rewrite existsb_exists. split.
  - intros (w & Hin & Hc). apply PyStr.contains_spec in Hc as (a & b & Hab).
    apply PyStr.lower_app_inv in Hab as (pre & rest & -> & Hpre & Hrest).
    apply PyStr.lower_app_inv in Hrest as (s & post & -> & Hs & Hpost).
    exists w, pre, s, post. by rewrite <- list_elem_of_In in Hin.
  - intros (w & pre & s & post & Hin & Hs & ->).
    exists w. split; [by apply list_elem_of_In |].
    apply PyStr.contains_spec. exists (PyStr.lower pre), (PyStr.lower post).
    by rewrite !PyStr.lower_app, Hs.
Qed.

(** C3: the classifier is a strict priority chain over case-insensitive
    substring hits: the result is "cutoff" exactly when a cutoff keyword is
    mentioned (whatever else the text holds), "billing" exactly when no cutoff
    keyword but a billing keyword is mentioned, "outage" exactly when neither
    of those but an outage keyword is mentioned, and "general" exactly when
    no keyword is mentioned at all. *)
Theorem intent_priority_chain (msg : string) :
  (intent msg = "cutoff" ↔ mentions cutoff_keywords msg) ∧
  (intent msg = "billing" ↔
     ¬ mentions cutoff_keywords msg ∧ mentions billing_keywords msg) ∧
  (intent msg = "outage" ↔
     ¬ mentions cutoff_keywords msg ∧ ¬ mentions billing_keywords msg ∧
     mentions outage_keywords msg) ∧
  (intent msg = "general" ↔
     ¬ mentions cutoff_keywords msg ∧ ¬ mentions billing_keywords msg ∧
     ¬ mentions outage_keywords msg).
Proof.
  rewrite <- !any_in_mentions. unfold intent.
  destruct (any_in cutoff_keywords _), (any_in billing_keywords _),
    (any_in outage_keywords _); intuition congruence.
Qed.

(** The cutoff keyword wins over a billing and an outage keyword in the same
    message, in upper case as well. *)
Lemma intent_priority_chain_witness :
  intent "No power since my BILL came, when is the CUT-OFF?" = "cutoff".
Proof.
  apply (proj1 (intent_priority_chain _)).
  exists "cut-off", "No power since my BILL came, when is the ", "CUT-OFF", "?".
  split; [set_solver | split; reflexivity].
Defined.

(* ===================================================================== *)
(** * 4. Conversation memory                                               *)
(* ===================================================================== *)

(** One entry of a conversation, the dict [{"role": role, "text": text}]. *)
Record turn := Turn { role : string; text : string }.

Definition MAX_TURNS : nat := 10.

(** [l[-n:]] for a positive [n]: the last [n] elements, all of [l] when it
    is shorter. *)
Definition last_n {A : Type} (n : nat) (l : list A) : list A :=
  drop (length l - n) l.

(** [convo.get(psid, [])]; also the value of [convo[psid]] when the key is
    present. *)
Definition history (psid : string) (convo : gmap string (list turn)) : list turn :=
  default [] (convo !! psid).

(** The global dict [convo] is passed in and handed back.  A dict operation
    on a [str] key cannot raise, so no error outcome is needed. *)
Definition remember (psid role text : string) (convo : gmap string (list turn))
  : gmap string (list turn) :=
  (* convo.setdefault(psid, []).append({...}) *)
  let convo1 := <[psid := history psid convo ++ [Turn role text]]> convo in
  if MAX_TURNS * 2 <? length (history psid convo1)
  then <[psid := last_n (MAX_TURNS * 2) (history psid convo1)]> convo1
  else convo1.

(** [convo.pop(psid, None)] *)
Definition reset_memory (psid : string) (convo : gmap string (list turn))
  : gmap string (list turn) :=
  delete psid convo.

(** Sequences of store operations, to state what any run leaves behind. *)
Inductive store_op :=
| OpRemember (psid role text : string)
| OpReset (psid : string).

Definition apply_op (convo : gmap string (list turn)) (op : store_op)
  : gmap string (list turn) :=
  match op with
  | OpRemember psid role text => remember psid role text convo
  | OpReset psid => reset_memory psid convo
  end.

Definition run_ops (ops : list store_op) (convo : gmap string (list turn))
  : gmap string (list turn) :=
  foldl apply_op convo ops.

(** The unbounded log of a user: every turn appended for [u], in order,
    since the last reset of [u] (starting from [acc]). *)
Fixpoint appended (u : string) (ops : list store_op) (acc : list turn) : list turn :=
  match ops with
  | [] => acc
  | OpRemember p r t :: ops' =>
      appended u ops' (if decide (p = u) then acc ++ [Turn r t] else acc)
  | OpReset p :: ops' =>
      appended u ops' (if decide (p = u) then [] else acc)
  end.

Section last_n_facts.
Context {A : Type}.
Implicit Types l k : list A.

Lemma last_n_length n l : length (last_n n l) = min n (length l).
Proof. unfold last_n. rewrite length_drop. lia. Qed.

Lemma last_n_all n l : length l ≤ n → last_n n l = l.
Proof. intros H. unfold last_n. by replace (length l - n) with 0 by lia. Qed.

Lemma last_n_app_ge n l k : n ≤ length k → last_n n (l ++ k) = last_n n k.
Proof.
  intros H. unfold last_n. rewrite length_app, drop_app.
  rewrite drop_ge by lia. simpl. f_equal. lia.
Qed.

Lemma last_n_split n l : l = take (length l - n) l ++ last_n n l.
Proof. unfold last_n. by rewrite take_drop. Qed.

(** Trimming after every append equals trimming once at the end. *)
Lemma last_n_absorb n l k : last_n n (last_n n l ++ k) = last_n n (l ++ k).
Proof.
  destruct (decide (length l ≤ n)) as [Hle|Hgt].
  - by rewrite (last_n_all n l).
  - rewrite (last_n_split n l) at 2. rewrite <- (assoc_L (++)).
    rewrite (last_n_app_ge n (take (length l - n) l)); [done |].
    rewrite length_app, last_n_length. lia.
Qed.

Lemma last_n_suffix n l : last_n n l `suffix_of` l.
Proof. apply suffix_drop. Qed.
End last_n_facts.

Lemma history_insert psid l (convo : gmap string (list turn)) :
  history psid (<[psid := l]> convo) = l.
Proof. unfold history. by rewrite lookup_insert_eq. Qed.

Lemma history_insert_ne p u l (convo : gmap string (list turn)) :
  p ≠ u → history u (<[p := l]> convo) = history u convo.
Proof. intros H. unfold history. by rewrite lookup_insert_ne. Qed.

Lemma remember_lookup_ne p u r t (convo : gmap string (list turn)) :
  p ≠ u → remember p r t convo !! u = convo !! u.
Proof.
  intros H. unfold remember. case_match; by rewrite ?lookup_insert_ne.
Qed.

(** What one append does to the history of any user. *)
Lemma history_remember p u r t (convo : gmap string (list turn)) :
  history u (remember p r t convo) =
  if decide (p = u)
  then last_n (MAX_TURNS * 2) (history u convo ++ [Turn r t])
  else history u convo.
Proof.
  case_decide as Hpu.
  - subst u. unfold remember. rewrite history_insert.
    destruct (Nat.ltb_spec (MAX_TURNS * 2) (length (history p convo ++ [Turn r t])))
      as [Hlt|Hge].
    + by rewrite history_insert.
    + rewrite history_insert. by rewrite last_n_all.
  - unfold history. by rewrite remember_lookup_ne.
Qed.

Lemma history_reset p u (convo : gmap string (list turn)) :
  history u (reset_memory p convo) = if decide (p = u) then [] else history u convo.
Proof.
  unfold history, reset_memory. case_decide as Hpu.
  - subst. by rewrite lookup_delete_eq.
  - by rewrite lookup_delete_ne.
Qed.

Lemma history_run_ops u ops : ∀ (convo : gmap string (list turn)) acc,
  history u convo = last_n (MAX_TURNS * 2) acc →
  history u (run_ops ops convo) = last_n (MAX_TURNS * 2) (appended u ops acc).
Proof.
  induction ops as [|op ops IH]; intros convo acc Hinv; [done |].
  destruct op as [p r t | p]; simpl; apply IH.
  - rewrite history_remember. case_decide; [| done].
    by rewrite Hinv, last_n_absorb.
  - rewrite history_reset. by case_decide.
Qed.

(** C4: after any sequence of store operations started on the empty store,
    the history kept for a user has at most 2*MAX_TURNS entries and is exactly
    the last 2*MAX_TURNS turns appended for that user (since that user's last
    reset), in insertion order: a suffix of the unbounded log, hence the
    oldest entries are the ones evicted. *)
Theorem remember_sliding_window (ops : list store_op) (u : string) :
  let h := history u (run_ops ops ∅) in
  length h ≤ 2 * MAX_TURNS ∧
  h = last_n (2 * MAX_TURNS) (appended u ops []) ∧
  h `suffix_of` appended u ops [].
Proof.
  assert (history u (run_ops ops ∅) = last_n (2 * MAX_TURNS) (appended u ops []))
    as Hh by (by apply history_run_ops).
  cbn zeta. rewrite Hh. split_and!; [| done | apply last_n_suffix].
  rewrite last_n_length. lia.
Qed.

(** Twenty-one appends for one user, with texts "A" to "U": the first one
    is evicted and the twenty most recent stay in order. *)
Example remember_evicts_oldest :
  let letter i := String (ascii_of_nat (65 + i)) EmptyString in
  history "1001"
    (run_ops (map (fun i => OpRemember "1001" "user" (letter i)) (seq 0 21)) ∅)
  = map (fun i => Turn "user" (letter i)) (seq 1 20).
Proof. vm_compute. reflexivity. Qed.

(** C9: resetting a user that has no stored history leaves the store as it
    was, a second reset in a row changes nothing more, and the history read
    after a reset is empty.  [reset_memory] is a total function without an
    error outcome. *)
Theorem reset_memory_idempotent (psid : string) (convo : gmap string (list turn)) :
  (convo !! psid = None → reset_memory psid convo = convo) ∧
  reset_memory psid (reset_memory psid convo) = reset_memory psid convo ∧
  reset_memory psid convo !! psid = None ∧
  history psid (reset_memory psid convo) = [].
Proof.
  unfold reset_memory. split_and!.
  - apply delete_id.
  - apply delete_delete_eq.
  - apply lookup_delete_eq.
  - unfold history. by rewrite lookup_delete_eq.
Qed.

Lemma reset_memory_idempotent_witness :
  reset_memory "1001" (∅ : gmap string (list turn)) = ∅.
Proof.
  apply (proj1 (reset_memory_idempotent "1001" ∅)). apply lookup_empty.
Defined.

(** C10: an append or a reset for user [u] leaves the stored sequence of
    every other user [v] exactly as it was (absent stays absent). *)
Theorem convo_per_key_isolation (u v role text : string)
    (convo : gmap string (list turn)) :
  u ≠ v →
  remember u role text convo !! v = convo !! v ∧
  reset_memory u convo !! v = convo !! v.
Proof.
  intros Huv. split.
  - by apply remember_lookup_ne.
  - unfold reset_memory. by rewrite lookup_delete_ne.
Qed.

Lemma convo_per_key_isolation_witness :
  "1001" ≠ "2002" ∧
  remember "1001" "user" "hi" {["2002" := [Turn "user" "hello"]]} !! "2002"
    = Some [Turn "user" "hello"] ∧
  reset_memory "1001" {["2002" := [Turn "user" "hello"]]} !! "2002"
    = Some [Turn "user" "hello"].
Proof.
  assert ("1001" ≠ "2002") as Hne by discriminate.
  split; [exact Hne |].
  destruct (convo_per_key_isolation "1001" "2002" "user" "hi"
              {["2002" := [Turn "user" "hello"]]} Hne) as [H1 H2].
  rewrite H1, H2. split; apply lookup_singleton_eq.
Defined.

(* ===================================================================== *)
(** * Exceptions, outcomes and the outside world                           *)
(* ===================================================================== *)

(** The exception classes that can arise in a turn.  All of them derive from
    [Exception], so [except Exception] catches every one. *)
Inductive exn :=
| ValueError (msg : string)
| AttributeError (msg : string)
| KeyError (key : string)
| TypeError (msg : string)
| IndexError (msg : string)
| JSONDecodeError (msg : string)
| APIError (msg : string)        (* raised by the OpenAI client *)
| DatabaseError (msg : string).  (* pyodbc.Error *)

(** [str(e)], what an f-string interpolates. *)
Definition exn_str (e : exn) : string :=
  match e with
  | KeyError k => "'" +:+ k +:+ "'"
  | ValueError m | AttributeError m | TypeError m | IndexError m
  | JSONDecodeError m | APIError m | DatabaseError m => m
  end.

Inductive outcome (A : Type) :=
| Ok (a : A)
| Raised (e : exn).
Arguments Ok {A} a.
Arguments Raised {A} e.

(** Values that [json.loads] can return. A [JDict] lists the items of the
    resulting dict, one per key. *)
#[local] Unset Elimination Schemes.
Inductive json :=
| JNull
| JBool (b : bool)
| JInt (n : Z)
| JFloat (repr : string)
| JStr (s : string)
| JList (items : list json)
| JDict (items : list (string * json)).
#[local] Set Elimination Schemes.

Definition type_name (v : json) : string :=
  match v with
  | JNull => "NoneType"
  | JBool _ => "bool"
  | JInt _ => "int"
  | JFloat _ => "float"
  | JStr _ => "str"
  | JList _ => "list"
  | JDict _ => "dict"
  end.

Fixpoint assoc {V : Type} (k : string) (d : list (string * V)) : option V :=
  match d with
  | [] => None
  | (k', v) :: d' => if String.eqb k' k then Some v else assoc k d'
  end.

(** [v[key]] for a string key. *)
Definition subscript (v : json) (key : string) : outcome json :=
  match v with
  | JDict items =>
      match assoc key items with
      | Some x => Ok x
      | None => Raised (KeyError key)
      end
  | JList _ => Raised (TypeError "list indices must be integers or slices, not str")
  | JStr _ => Raised (TypeError "string indices must be integers")
  | _ => Raised (TypeError ("'" +:+ type_name v +:+ "' object is not subscriptable"))
  end.

(** [l[i]] on a list, negative indices counting from the end. *)
Definition py_index {A : Type} (l : list A) (i : Z) : outcome A :=
  let n := Z.of_nat (length l) in
  let j := if (i <? 0)%Z then (i + n)%Z else i in
  if ((0 <=? j) && (j <? n))%Z
  then match l !! Z.to_nat j with
       | Some x => Ok x
       | None => Raised (IndexError "list index out of range")
       end
  else Raised (IndexError "list index out of range").

(** A dict under construction keeps insertion order; setting a present key
    replaces its value in place. *)
Fixpoint dict_set {V : Type} (k : string) (v : V) (d : list (string * V))
  : list (string * V) :=
  match d with
  | [] => [(k, v)]
  | (k', v') :: d' =>
      if String.eqb k' k then (k, v) :: d' else (k', v') :: dict_set k v d'
  end.

(** [dict(pairs)] *)
Definition dict_of_pairs {V : Type} (pairs : list (string * V)) : list (string * V) :=
  foldl (fun d kv => dict_set kv.1 kv.2 d) [] pairs.

(** The [function_call] attribute of a chat message. *)
Record function_call := FunctionCall { fc_name : string; fc_arguments : string }.

(** [resp.choices[0].message] *)
Record chat_message := ChatMessage {
  msg_content : option string;
  msg_function_call : option function_call
}.

(** The entries of the [messages] list sent to the chat endpoint. *)
Inductive message :=
| Message (role content : string)
| AssistantCall (fc : function_call)       (* role assistant, content None *)
| FunctionResult (name content : string).  (* role function *)

(** Column values of a fetched row. *)
Inductive dbval :=
| DNull
| DInt (n : Z)
| DFloat (repr : string)
| DText (s : string)
| DDate (repr : string).

(** What the outside world has been asked to do so far, oldest first.
    [EvConnect] records a connection that was opened, [EvConnClose] one that
    was closed. *)
Inductive event :=
| EvEmbed (input : string)
| EvChat (messages : list message) (functions : bool)
| EvConnect
| EvExecute (sql : string)
| EvFetchall
| EvCursorClose
| EvConnClose.

(** The state a turn runs in: the module-level dict [convo] and the log of
    outside calls. *)
Record world := World {
  w_convo : gmap string (list turn);
  w_trace : list event
}.

(** The embedding and chat endpoints; an answer may depend on everything
    asked before. *)
Record provider (vec : Type) := Provider {
  embeddings_create : list event → string → outcome vec;
  chat_create : list event → list message → bool → outcome chat_message
}.
Arguments Provider {vec} _ _.
Arguments embeddings_create {vec} _ _ _.
Arguments chat_create {vec} _ _ _ _.

(** The state of a cursor after [execute]: [cur.description] (the column
    names, [None] when the statement produced no result set) and what
    [cur.fetchall()] will do. A failure carries the message of the
    [pyodbc.Error]. *)
Record result_set := ResultSet {
  rs_description : option (list string);
  rs_fetchall : string + list (list dbval)
}.

(** The ODBC data source: [db_connect] answers [Some msg] when
    [pyodbc.connect] raises, [db_execute] answers [inl msg] when
    [cur.execute] raises. *)
Record database := Database {
  db_connect : list event → option string;
  db_execute : list event → string → string + result_set
}.

(** Array arithmetic of numpy on [float32] data, kept abstract. *)
Class Numeric (F vec : Type) := {
  np_dot : vec → vec → F;
  np_norm : vec → F;
  f_mul : F → F → F;
  f_div : F → F → F;
  f_ge : F → F → bool;
  f_threshold : F                (* the literal 0.45 *)
}.

(** ** The monad of a turn: state passing with exceptions.  The state
    reached when an exception is raised is kept. *)
Definition M (A : Type) : Type := world → outcome A * world.

Definition ret {A : Type} (a : A) : M A := fun w => (Ok a, w).

Definition raise {A : Type} (e : exn) : M A := fun w => (Raised e, w).

Definition bind {A B : Type} (m : M A) (k : A → M B) : M B :=
  fun w =>
    match m w with
    | (Ok a, w') => k a w'
    | (Raised e, w') => (Raised e, w')
    end.

(** [try: body / except Exception as e: handler / else: orelse] *)
Definition try_except_else {A B : Type}
    (body : M A) (handler : exn → M B) (orelse : A → M B) : M B :=
  fun w =>
    match body w with
    | (Ok a, w') => orelse a w'
    | (Raised e, w') => handler e w'
    end.

Definition lift_outcome {A : Type} (o : outcome A) : M A := fun w => (o, w).

Definition log (ev : event) : M unit :=
  fun w => (Ok tt, World (w_convo w) (w_trace w ++ [ev])).

Definition gets_convo {A : Type} (f : gmap string (list turn) → A) : M A :=
  fun w => (Ok (f (w_convo w)), w).

Definition modify_convo (f : gmap string (list turn) → gmap string (list turn))
  : M unit :=
  fun w => (Ok tt, World (f (w_convo w)) (w_trace w)).

Notation "'let*' x ':=' m 'in' k" := (bind m (fun x => k))
  (at level 10, x pattern, m at level 100, k at level 200).

(** Number of connections opened and not yet closed. *)
Fixpoint open_connections (tr : list event) (n : nat) : nat :=
  match tr with
  | [] => n
  | EvConnect :: tr' => open_connections tr' (S n)
  | EvConnClose :: tr' => open_connections tr' (pred n)
  | _ :: tr' => open_connections tr' n
  end.

(** Number of connections opened. *)
Definition is_chat (ev : event) : bool :=
  match ev with EvChat _ _ => true | _ => false end.

(** Number of requests made to the chat endpoint. *)
Definition chat_requests (tr : list event) : nat :=
  length (List.filter is_chat tr).
(** The static reply of the "cutoff" intent. *)
Definition canned_cutoff : string :=
"Here are the scheduled cut-off dates (“Petsa sa Pamutol”) by area:
  • Asturias – 4th of the month  
  • Balamban – 8th of the month  
  • Aloguinsan – 10th of the month  
  • Pinamungajan – 12th of the month  
  • Cebu City Areas – 12th of the month  
  • Special Bills – 14th of the month  
  • Lutopan – 24th of the month  
  • Toledo City – 27th of the month  

*Payments not received* by the cut-off date will result in service suspension plus a 2% monthly surcharge.  
However, per the ERC’s Magna Carta for Residential Electricity Consumers (Res. 12-09), CEBECO III *must* suspend any disconnection if:
  1. A customer’s household has someone on life-support equipment (medical cert. required).  
  2. A funeral wake is being held on the premises.  
  3. The customer never received the Final Disconnection Notice (FDN).  
  4. A billing error charged multiple months at once.  
  5. The customer settles the current bill within 24 hours of the first cut-off attempt (once per billing cycle).  

And *no disconnections* may occur on:
  – Fridays, weekends, national/local holidays, or the day before these.  
  – Holy Week (Maundy Thursday through Easter Sunday).  
  – Any ERC-declared moratorium days (e.g. grid emergencies, public calamities).  

Registered senior citizens, PWDs, or life-support households also get an automatic 30-day extension after the FDN.".

(** The static reply of the "billing" intent. *)
Definition canned_billing : string :=
"To check your current balance please send your Consumer ID.
Payments can be made via GCash → Bills → CEBECO III, Palawan Pawnshop, 7-Eleven CliQQ or at any area office.".

(** The static reply of the "outage" intent. *)
Definition canned_outage : string :=
"For outage reports please include your complete address and Consumer ID. Current grid advisory: see Power-Situation bulletins on our FB page. You may also call our 24×7 hotline (032) 467-9-112.".

(* ===================================================================== *)
(** * 1, 3 and 7. Gateway, retrieval and reply generation                  *)
(* ===================================================================== *)

Definition only_select_msg : string := "Only SELECT queries are allowed.".

Definition none_strip_msg : string :=
  "'NoneType' object has no attribute 'strip'".

(** [f"⚠️ SQL error: {e}"] *)
Definition sql_warning (e : exn) : string := "⚠️ SQL error: " +:+ exn_str e.

Definition nl : string := String "010"%char EmptyString.

Definition system_prompt (chunks : list string) : string :=
  "You are the CEBECO3 assistant. You have a knowledge base and can call " +:+
  "execute_sql(sql) to fetch system‐loss data from TSD.SystemLoss." +:+ nl +:+ nl +:+
  "Knowledge Base:" +:+ nl +:+ PyStr.join nl chunks.

(** The request of the first model call: system instruction, the stored
    history of the user (which already ends with the new message), and the
    new message once more. *)
Definition compose_messages (chunks : list string) (hist : list turn)
    (user_msg : string) : list message :=
  [Message "system" (system_prompt chunks)]
  ++ map (fun t => Message (role t) (text t)) hist
  ++ [Message "user" user_msg].

(** [msg.content.strip()] *)
Definition strip_content (c : option string) : M string :=
  match c with
  | Some s => ret (PyStr.strip s)
  | None => raise (AttributeError none_strip_msg)
  end.

Section Bot.

Context {F vec : Type} `{Numeric F vec}.
Variable P : provider vec.
Variable DB : database.

(** The corpus and its embeddings, computed once at start-up. *)
Variable knowledge_chunks : list string.
Variable vectors : list vec.

(** [faiss_idx.search(q, k)] for a single query row: the rows [D[0]] and
    [I[0]]. *)
Variable faiss_search : vec → nat → list F * list Z.

Variable json_loads : string → outcome json.
Variable json_dumps : list (list (string * dbval)) → string.

(** ** Safe SQL helper *)

(** [get_db_conn()], that is [pyodbc.connect(conn_str)]. *)
Definition get_db_conn : M unit :=
  fun w =>
    match db_connect DB (w_trace w) with
    | Some msg => (Raised (DatabaseError msg), w)
    | None => (Ok tt, World (w_convo w) (w_trace w ++ [EvConnect]))
    end.

(** [cur = conn.cursor(); cur.execute(sql)] *)
Definition cursor_execute (sql : string) : M result_set :=
  fun w =>
    let w' := World (w_convo w) (w_trace w ++ [EvExecute sql]) in
    match db_execute DB (w_trace w) sql with
    | inl msg => (Raised (DatabaseError msg), w')
    | inr rs => (Ok rs, w')
    end.

(** [[c[0] for c in cur.description]] *)
Definition description_names (rs : result_set) : M (list string) :=
  match rs_description rs with
  | Some cols => ret cols
  | None => raise (TypeError "'NoneType' object is not iterable")
  end.

(** [cur.fetchall()] *)
Definition fetchall (rs : result_set) : M (list (list dbval)) :=
  let* _ := log EvFetchall in
  match rs_fetchall rs with
  | inl msg => raise (DatabaseError msg)
  | inr rows => ret rows
  end.

Definition execute_sql (sql : string) : M (list (list (string * dbval))) :=
  let sql_clean := PyStr.lower (PyStr.strip sql) in
  if negb (PyStr.startswith sql_clean "select")
  then raise (ValueError only_select_msg)
  else
    let* _ := get_db_conn in
    let* rs := cursor_execute sql in
    let* cols := description_names rs in
    let* rows := fetchall rs in
    let* _ := log EvCursorClose in
    let* _ := log EvConnClose in
    ret (map (fun row => dict_of_pairs (zip cols row)) rows).

(** The call [execute_sql(v)] on a decoded JSON value: anything but a [str]
    fails at [sql.strip()]. *)
Definition call_execute_sql (v : json) : M (list (list (string * dbval))) :=
  match v with
  | JStr sql => execute_sql sql
  | _ => raise (AttributeError
                  ("'" +:+ type_name v +:+ "' object has no attribute 'strip'"))
  end.

(** ** Retrieval *)

(** [np.dot(v, q) / (np.linalg.norm(v) * np.linalg.norm(q))] *)
Definition cosine (v q : vec) : F :=
  f_div (np_dot v q) (f_mul (np_norm v) (np_norm q)).

(** The loop over [zip(I[0], D[0])]. *)
Fixpoint top_chunks_loop (qvec : vec) (cands : list (Z * F)) (out : list string)
  : outcome (list string) :=
  match cands with
  | [] => Ok out
  | (idx, dist) :: rest =>
      if (idx =? -1)%Z then top_chunks_loop qvec rest out
      else
        match py_index vectors idx with
        | Raised e => Raised e
        | Ok v =>
            if f_ge (cosine v qvec) f_threshold
            then match py_index knowledge_chunks idx with
                 | Raised e => Raised e
                 | Ok c => top_chunks_loop qvec rest (out ++ [c])
                 end
            else top_chunks_loop qvec rest out
        end
  end.

(** [openai_client.embeddings.create(input=query, ...).data[0].embedding] *)
Definition embed (query : string) : M vec :=
  fun w =>
    (embeddings_create P (w_trace w) query,
     World (w_convo w) (w_trace w ++ [EvEmbed query])).

Definition default_k : nat := 3.

Definition top_chunks (query : string) (k : nat) : M (list string) :=
  let* qvec := embed query in
  let (D, I) := faiss_search qvec k in
  lift_outcome (top_chunks_loop qvec (zip I D) []).

(** ** Reply generation *)

(** [openai_client.chat.completions.create(...).choices[0].message];
    [functions] tells whether [sql_function] is declared. *)
Definition chat_completions_create (messages : list message) (functions : bool)
  : M chat_message :=
  fun w =>
    (chat_create P (w_trace w) messages functions,
     World (w_convo w) (w_trace w ++ [EvChat messages functions])).

(** The body of the [try]: [execute_sql(args["sql"])]. *)
Definition gateway_call (args : json) : M (list (list (string * dbval))) :=
  let* sql := lift_outcome (subscript args "sql") in
  call_execute_sql sql.

(** The branch taken when the model asks for the function. *)
Definition tool_call (messages : list message) (fc : function_call) : M string :=
  let* args := lift_outcome (json_loads (fc_arguments fc)) in
  try_except_else (gateway_call args)
    (fun e => ret (sql_warning e))
    (fun result =>
       let messages' :=
         messages ++ [AssistantCall fc;
                      FunctionResult "execute_sql" (json_dumps result)] in
       let* followup := chat_completions_create messages' false in
       strip_content (msg_content followup)).

Definition generate_reply (psid user_msg : string) : M string :=
  let* _ := modify_convo (remember psid "user" user_msg) in
  if String.eqb (intent user_msg) "cutoff" then ret canned_cutoff
  else if String.eqb (intent user_msg) "billing" then ret canned_billing
  else if String.eqb (intent user_msg) "outage" then ret canned_outage
  else
    let* chunks := top_chunks user_msg default_k in
    let* hist := gets_convo (history psid) in
    let messages := compose_messages chunks hist user_msg in
    let* msg := chat_completions_create messages true in
    let* answer :=
      match msg_function_call msg with
      | Some fc => tool_call messages fc
      | None => strip_content (msg_content msg)
      end in
    let* _ := modify_convo (remember psid "assistant" answer) in
    ret answer.


(** ** Facts about the gateway *)


Ltac run_gateway :=
  unfold bind, get_db_conn, cursor_execute, description_names,
    fetchall, log, ret, raise; simpl.



Lemma open_connections_app (tr1 tr2 : list event) (n : nat) :
  open_connections (tr1 ++ tr2) n = open_connections tr2 (open_connections tr1 n).
Proof.
  revert n. induction tr1 as [|ev tr1 IH]; intros n; [done |].
  destruct ev; simpl; by rewrite IH.
Qed.

(** The path without an exception closes the connection it opened. *)
Lemma execute_sql_ok_releases (sql : string) (w w' : world) r :
  execute_sql sql w = (Ok r, w') →
  ∃ rs, w_trace w' = w_trace w ++
          [EvConnect; EvExecute sql; EvFetchall; EvCursorClose; EvConnClose] ∧
        db_execute DB (w_trace w ++ [EvConnect]) sql = inr rs ∧
        ∀ n, open_connections (w_trace w') n = open_connections (w_trace w) n.
Proof.
  unfold execute_sql. destruct (negb _); [discriminate |]. run_gateway.
  destruct (db_connect DB (w_trace w)); [discriminate |]. simpl.
  destruct (db_execute DB _ sql) as [msg | rs] eqn:Hx; [discriminate |].
  destruct (rs_description rs); [| discriminate].
  destruct (rs_fetchall rs); [discriminate |].
  intros [= _ <-]. exists rs. simpl. rewrite <- !(assoc_L (++)). simpl.
  split_and!; [done.. |].
  intros n. by rewrite open_connections_app.
Qed.

Lemma chat_requests_app (tr1 tr2 : list event) :
  chat_requests (tr1 ++ tr2) = chat_requests tr1 + chat_requests tr2.
Proof. unfold chat_requests. by rewrite List.filter_app, length_app. Qed.

(** The gateway touches neither the conversation store nor the chat
    endpoint. *)
Lemma execute_sql_frame (sql : string) (w w' : world) o :
  execute_sql sql w = (o, w') →
  w_convo w' = w_convo w ∧ chat_requests (w_trace w') = chat_requests (w_trace w).
Proof.
  unfold execute_sql. destruct (negb _); [by intros [= _ <-] |]. run_gateway.
  destruct (db_connect DB (w_trace w)); [by intros [= _ <-] |]. simpl.
  destruct (db_execute DB _ sql) as [msg | rs].
  { intros [= _ <-]. simpl. split; [done |].
    rewrite <- (assoc_L (++)), chat_requests_app. unfold chat_requests. simpl. lia. }
  destruct (rs_description rs), (rs_fetchall rs); intros [= _ <-]; simpl;
    (split; [done |]); rewrite <- ?(assoc_L (++)), chat_requests_app;
    unfold chat_requests; simpl; lia.
Qed.

Lemma gateway_call_frame (args : json) (w w' : world) o :
  gateway_call args w = (o, w') →
  w_convo w' = w_convo w ∧ chat_requests (w_trace w') = chat_requests (w_trace w).
Proof.
  unfold gateway_call, bind, lift_outcome.
  destruct (subscript args "sql") as [v | e]; [| by intros [= _ <-]].
  destruct v; simpl; try (by intros [= _ <-]).
  apply execute_sql_frame.
Qed.

(** ** Facts about retrieval *)

Lemma py_index_in_range {A : Type} (l : list A) (i : Z) :
  (0 ≤ i < Z.of_nat (length l))%Z →
  ∃ x, py_index l i = Ok x ∧ l !! Z.to_nat i = Some x.
Proof.
  intros Hi. unfold py_index.
  destruct (Z.ltb_spec i 0) as [Hneg | _]; [lia |].
  destruct (Z.leb_spec 0 i) as [_ | Hneg]; [| lia].
  destruct (Z.ltb_spec i (Z.of_nat (length l))) as [_ | Hbig]; [| lia].
  simpl. destruct (l !! Z.to_nat i) as [x |] eqn:Hl; [by exists x |].
  apply lookup_ge_None in Hl. lia.
Qed.



Lemma Forall_zip_fst {A B : Type} (Q : A → Prop) (l : list A) (k : list B) :
  Forall Q l → Forall (fun p => Q p.1) (zip l k).
Proof.
  intros Hl. revert k. induction Hl as [| x l Hx _ IH]; intros [| y k]; simpl;
    constructor; auto.
Qed.


(** ** Facts about reply generation *)

Lemma top_chunks_frame (query : string) (k : nat) (w w' : world) o :
  top_chunks query k w = (o, w') →
  w' = World (w_convo w) (w_trace w ++ [EvEmbed query]).
Proof.
  unfold top_chunks, bind, embed, lift_outcome.
  destruct (embeddings_create P (w_trace w) query) as [qvec | e];
    [| by intros [= _ <-]].
  destruct (faiss_search qvec k) as [D I]. by intros [= _ <-].
Qed.

Lemma last_last_n {A : Type} (n : nat) (l : list A) (x : A) :
  0 < n → last (last_n n (l ++ [x])) = Some x.
Proof.
  intros Hn. unfold last_n. rewrite length_app. simpl.
  rewrite drop_app_le by lia. apply last_snoc.
Qed.

Lemma last_history_remember psid r t (convo : gmap string (list turn)) :
  last (history psid (remember psid r t convo)) = Some (Turn r t).
Proof.
  rewrite history_remember. rewrite decide_True by done.
  apply last_last_n. unfold MAX_TURNS. lia.
Qed.

(** On a message with a routed intent the function returns right after
    storing the user message: nothing is asked of the outside world and no
    assistant turn is stored. *)
Lemma generate_reply_canned (psid user_msg : string) (w : world) :
  intent user_msg ≠ "general" →
  ∃ answer,
    answer ∈ [canned_cutoff; canned_billing; canned_outage] ∧
    generate_reply psid user_msg w
      = (Ok answer, World (remember psid "user" user_msg (w_convo w)) (w_trace w)).
Proof.
  intros Hi. unfold generate_reply, bind, modify_convo, ret.
  revert Hi. unfold intent.
  destruct (any_in cutoff_keywords _); [intros _; exists canned_cutoff; split; [set_solver | done] |].
  destruct (any_in billing_keywords _); [intros _; exists canned_billing; split; [set_solver | done] |].
  destruct (any_in outage_keywords _); [intros _; exists canned_outage; split; [set_solver | done] |].
  done.
Qed.

(** C5, at a message of the cutoff intent: the canned reply is returned, and
    the store then holds the user message only; the returned answer is not
    in the history of that user. *)
Theorem generate_reply_canned_answer_not_stored :
  generate_reply "1001" "What's the cut-off date for Balamban?" (World ∅ [])
    = (Ok canned_cutoff,
       World {["1001" := [Turn "user" "What's the cut-off date for Balamban?"]]} []) ∧
  Turn "assistant" canned_cutoff
    ∉ [Turn "user" "What's the cut-off date for Balamban?"].
Proof.
  split.
  - vm_compute. reflexivity.
  - intros Hin. apply list_elem_of_singleton in Hin. discriminate.
Qed.

Lemma generate_reply_general (psid user_msg : string) (w : world) :
  intent user_msg = "general" →
  generate_reply psid user_msg w =
  (let* chunks := top_chunks user_msg default_k in
   let* hist := gets_convo (history psid) in
   let* msg := chat_completions_create
                 (compose_messages chunks hist user_msg) true in
   let* answer :=
     match msg_function_call msg with
     | Some fc => tool_call (compose_messages chunks hist user_msg) fc
     | None => strip_content (msg_content msg)
     end in
   let* _ := modify_convo (remember psid "assistant" answer) in
   ret answer)
    (World (remember psid "user" user_msg (w_convo w)) (w_trace w)).
Proof.
  intros Hi. unfold generate_reply at 1. unfold bind at 1. unfold modify_convo at 1.
  by rewrite Hi.
Qed.

Lemma tool_call_gateway_raised (messages : list message) (fc : function_call)
    (args : json) (w w' : world) (e : exn) :
  json_loads (fc_arguments fc) = Ok args →
  gateway_call args w = (Raised e, w') →
  tool_call messages fc w = (Ok (sql_warning e), w').
Proof.
  intros Hargs Hgw. unfold tool_call, bind, lift_outcome, try_except_else.
  by rewrite Hargs, Hgw.
Qed.

(** C8: on the general path, when the model asks for the function and the
    gateway call raises [e], the reply is the fixed warning followed by
    [str(e)], the chat endpoint has been asked exactly once in the turn, and
    the warning is stored as the last (assistant) turn of the user. *)
Theorem generate_reply_gateway_failure
    (psid user_msg : string) (w w1 w2 : world) (chunks : list string)
    (msg : chat_message) (fc : function_call) (args : json) (e : exn) :
  intent user_msg = "general" →
  top_chunks user_msg default_k
    (World (remember psid "user" user_msg (w_convo w)) (w_trace w))
    = (Ok chunks, w1) →
  chat_create P (w_trace w1)
    (compose_messages chunks (history psid (w_convo w1)) user_msg) true = Ok msg →
  msg_function_call msg = Some fc →
  json_loads (fc_arguments fc) = Ok args →
  gateway_call args
    (World (w_convo w1)
       (w_trace w1 ++
        [EvChat (compose_messages chunks (history psid (w_convo w1)) user_msg) true]))
    = (Raised e, w2) →
  generate_reply psid user_msg w
    = (Ok ("⚠️ SQL error: " +:+ exn_str e),
       World (remember psid "assistant" ("⚠️ SQL error: " +:+ exn_str e)
                (remember psid "user" user_msg (w_convo w)))
             (w_trace w2)) ∧
  chat_requests (w_trace w2) = S (chat_requests (w_trace w)) ∧
  last (history psid
          (remember psid "assistant" ("⚠️ SQL error: " +:+ exn_str e)
             (remember psid "user" user_msg (w_convo w))))
    = Some (Turn "assistant" ("⚠️ SQL error: " +:+ exn_str e)).
Proof.
  intros Hi Htop Hchat Hfc Hargs Hgw.
  pose proof (top_chunks_frame _ _ _ _ _ Htop) as Hw1.
  pose proof (gateway_call_frame _ _ _ _ Hgw) as [Hc2 Hn2]. simpl in Hc2, Hn2.
  split_and!.
  - rewrite generate_reply_general by done.
    unfold bind at 1. rewrite Htop.
    unfold bind at 1. unfold gets_convo at 1.
    unfold bind at 1. unfold chat_completions_create at 1. rewrite Hchat, Hfc.
    unfold bind at 1.
    rewrite (tool_call_gateway_raised _ _ _ _ _ _ Hargs Hgw).
    unfold bind, modify_convo, ret, sql_warning.
    rewrite Hc2, Hw1. done.
  - rewrite Hn2, chat_requests_app, Hw1. simpl. rewrite chat_requests_app.
    unfold chat_requests. simpl. lia.
  - apply last_history_remember.
Qed.


(** ** Further facts about the gateway *)

(** X8: The exits of an accepted statement, one by one: with the data source
    answering, the original string (not the stripped, lower-cased copy) is
    sent, there is one record per fetched row, and the connection opened by
    the call is closed again. *)
Theorem execute_sql_success (sql : string) (w : world) (rs : result_set)
    (cols : list string) (rows : list (list dbval)) :
  PyStr.startswith (PyStr.lower (PyStr.strip sql)) "select" = true →
  db_connect DB (w_trace w) = None →
  db_execute DB (w_trace w ++ [EvConnect]) sql = inr rs →
  rs_description rs = Some cols →
  rs_fetchall rs = inr rows →
  execute_sql sql w
    = (Ok (map (fun row => dict_of_pairs (zip cols row)) rows),
       World (w_convo w)
         (w_trace w ++
          [EvConnect; EvExecute sql; EvFetchall; EvCursorClose; EvConnClose])) ∧
  length (map (fun row => dict_of_pairs (zip cols row)) rows) = length rows ∧
  ∀ n, open_connections
         (w_trace w ++
          [EvConnect; EvExecute sql; EvFetchall; EvCursorClose; EvConnClose]) n
       = open_connections (w_trace w) n.
Proof.
  intros Hs Hconn Hexec Hdesc Hfetch. split_and!.
  - unfold execute_sql. rewrite Hs. run_gateway.
    rewrite Hconn. simpl. rewrite Hexec, Hdesc. simpl. rewrite Hfetch.
    unfold bind. simpl. by rewrite <- !(assoc_L (++)).
  - apply length_map.
  - intros n. by rewrite open_connections_app.
Qed.

Ltac find_event :=
  repeat (apply elem_of_app;
          first [ right; apply list_elem_of_singleton; reflexivity | left ]).

(** X9: Every way [execute_sql] can raise.  Before a connection exists (the
    validation error, a failing connect) the world is left as it was.  After
    that (a failing execute, no result set, a failing fetch) the statement
    has been sent and the connection stays open. *)
Theorem execute_sql_raise_cases (sql : string) (w w' : world) (e : exn) :
  execute_sql sql w = (Raised e, w') →
  (w' = w ∧
   (e = ValueError only_select_msg ∨
    ∃ msg, e = DatabaseError msg ∧ db_connect DB (w_trace w) = Some msg)) ∨
  (EvExecute sql ∈ w_trace w' ∧
   w_convo w' = w_convo w ∧
   ∀ n, open_connections (w_trace w') n = S (open_connections (w_trace w) n)).
Proof.
  unfold execute_sql. destruct (negb _).
  { intros [= <- <-]. left. split; [done | by left]. }
  run_gateway. destruct (db_connect DB (w_trace w)) as [msg |] eqn:Hconn.
  { intros [= <- <-]. left. split; [done |]. right. by exists msg. }
  simpl. destruct (db_execute DB _ sql) as [msg | rs].
  { intros [= _ <-]. right. simpl. split_and!; [find_event | done |].
    intros n. by rewrite <- (assoc_L (++)), open_connections_app. }
  destruct (rs_description rs).
  - destruct (rs_fetchall rs); [| discriminate].
    intros [= _ <-]. right. simpl. split_and!; [find_event | done |].
    intros n. by rewrite <- !(assoc_L (++)), open_connections_app.
  - intros [= _ <-]. right. simpl. split_and!; [find_event | done |].
    intros n. by rewrite <- (assoc_L (++)), open_connections_app.
Qed.

(** ** Further facts about the tool branch *)

(** X10: When the decoded arguments hold no string under "sql" (no such key, not
    an object, or a value of another type), the branch answers with the
    warning text and leaves the world as it was: nothing is sent to the data
    source and no second model request is made. *)
Theorem tool_call_unusable_arguments (messages : list message)
    (fc : function_call) (args : json) (w : world) :
  json_loads (fc_arguments fc) = Ok args →
  (∀ s, subscript args "sql" ≠ Ok (JStr s)) →
  ∃ e, tool_call messages fc w = (Ok ("⚠️ SQL error: " +:+ exn_str e), w).
Proof.
  intros Hargs Hsql.
  assert (∃ e, gateway_call args w = (Raised e, w)) as [e Hgw].
  { unfold gateway_call, bind, lift_outcome.
    destruct (subscript args "sql") as [v | e] eqn:Hsub; [| by exists e].
    destruct v; simpl; try (by eexists). by destruct (Hsql s). }
  exists e. exact (tool_call_gateway_raised _ _ _ _ _ _ Hargs Hgw).
Qed.

(** ** Further facts about retrieval *)

(** The chunk a candidate index contributes, if any. *)
Definition accepted_chunk (qvec : vec) (idx : Z) : option string :=
  if (idx =? -1)%Z then None
  else match vectors !! Z.to_nat idx with
       | Some v =>
           if f_ge (cosine v qvec) f_threshold
           then knowledge_chunks !! Z.to_nat idx
           else None
       | None => None
       end.

Lemma top_chunks_loop_omap (qvec : vec) (cands : list (Z * F)) :
  Forall (fun p => (-1 ≤ p.1 < Z.of_nat (length vectors))%Z) cands →
  length vectors = length knowledge_chunks →
  ∀ out,
    top_chunks_loop qvec cands out
    = Ok (out ++ omap (accepted_chunk qvec) cands.*1).
Proof.
  intros Hrange Hlen. induction Hrange as [| [idx dist] rest Hidx _ IH]; intros out.
  - simpl. by rewrite app_nil_r.
  - simpl in Hidx. cbn [top_chunks_loop fmap list_fmap omap list_omap fst].
    unfold accepted_chunk at 1.
    destruct (Z.eqb_spec idx (-1)) as [-> | Hne]; [apply IH |].
    destruct (py_index_in_range vectors idx) as (v & -> & ->); [lia |].
    destruct (f_ge (cosine v qvec) f_threshold); [| apply IH].
    destruct (py_index_in_range knowledge_chunks idx) as (c & -> & ->); [lia |].
    by rewrite IH, <- (assoc_L (++)).
Qed.

(** X11: The result lists the accepted chunks in the order in which the index
    search returned their indices (nearest first by its distance): the cosine
    test only removes candidates, it does not reorder them. *)
Theorem top_chunks_keeps_search_order (query : string) (k : nat) (w : world)
    (qvec : vec) :
  embeddings_create P (w_trace w) query = Ok qvec →
  length (faiss_search qvec k).1 = length (faiss_search qvec k).2 →
  Forall (fun idx => (-1 ≤ idx < Z.of_nat (length vectors))%Z)
         (faiss_search qvec k).2 →
  length vectors = length knowledge_chunks →
  top_chunks query k w
  = (Ok (omap (accepted_chunk qvec) (faiss_search qvec k).2),
     World (w_convo w) (w_trace w ++ [EvEmbed query])).
Proof.
  intros Hemb Hshape Hidx Hlen.
  unfold top_chunks, bind, embed, lift_outcome. rewrite Hemb.
  destruct (faiss_search qvec k) as [D I]. simpl in Hshape, Hidx |- *.
  rewrite top_chunks_loop_omap; [| | done].
  - rewrite fst_zip by lia. done.
  - by apply (Forall_zip_fst
                (fun idx => (-1 ≤ idx < Z.of_nat (length vectors))%Z)).
Qed.

(** ** What a turn can touch *)

(** [w'] comes from [w] by changes to the history of [psid] only and by
    adding to the end of the log. *)
Definition extends (psid : string) (w w' : world) : Prop :=
  (∀ v, v ≠ psid → w_convo w' !! v = w_convo w !! v) ∧
  ∃ evs, w_trace w' = w_trace w ++ evs.

Definition local_to {A : Type} (psid : string) (m : M A) : Prop :=
  ∀ w o w', m w = (o, w') → extends psid w w'.

Lemma extends_refl psid w : extends psid w w.
Proof. split; [done |]. exists []. by rewrite app_nil_r. Qed.

Lemma extends_trans psid w1 w2 w3 :
  extends psid w1 w2 → extends psid w2 w3 → extends psid w1 w3.
Proof.
  intros [Hc1 [e1 Ht1]] [Hc2 [e2 Ht2]]. split.
  - intros v Hv. by rewrite Hc2, Hc1.
  - exists (e1 ++ e2). by rewrite Ht2, Ht1, (assoc_L (++)).
Qed.

Lemma extends_log psid w evs :
  extends psid w (World (w_convo w) (w_trace w ++ evs)).
Proof. split; [done |]. by exists evs. Qed.

Lemma local_bind {A B : Type} psid (m : M A) (k : A → M B) :
  local_to psid m → (∀ a, local_to psid (k a)) → local_to psid (bind m k).
Proof.
  intros Hm Hk w o w'. unfold bind.
  destruct (m w) as [[a | e] w1] eqn:Hrun.
  - intros Hrun2. eapply extends_trans; [by eapply Hm | by eapply Hk].
  - intros [= _ <-]. by eapply Hm.
Qed.

Lemma local_try {A B : Type} psid (body : M A) (handler : exn → M B)
    (orelse : A → M B) :
  local_to psid body → (∀ e, local_to psid (handler e)) →
  (∀ a, local_to psid (orelse a)) →
  local_to psid (try_except_else body handler orelse).
Proof.
  intros Hb Hh Ho w o w'. unfold try_except_else.
  destruct (body w) as [[a | e] w1] eqn:Hrun; intros Hrun2;
    (eapply extends_trans; [by eapply Hb |]); [by eapply Ho | by eapply Hh].
Qed.

Lemma local_lift {A : Type} psid (o : outcome A) : local_to psid (lift_outcome o).
Proof. intros w o' w' [= _ <-]. apply extends_refl. Qed.

Lemma local_ret {A : Type} psid (a : A) : local_to psid (ret a).
Proof. intros w o' w' [= _ <-]. apply extends_refl. Qed.

Lemma local_raise {A : Type} psid (e : exn) : local_to psid (@raise A e).
Proof. intros w o' w' [= _ <-]. apply extends_refl. Qed.

Lemma local_log psid (ev : event) : local_to psid (log ev).
Proof. intros w o' w' [= _ <-]. apply extends_log. Qed.

Lemma local_remember psid r t : local_to psid (modify_convo (remember psid r t)).
Proof.
  intros w o' w' [= _ <-]. split; simpl.
  - intros v Hv. by apply remember_lookup_ne.
  - exists []. by rewrite app_nil_r.
Qed.

Lemma local_strip_content psid c : local_to psid (strip_content c).
Proof. destruct c; [apply local_ret | apply local_raise]. Qed.

Lemma local_execute_sql psid sql : local_to psid (execute_sql sql).
Proof.
  unfold execute_sql. destruct (negb _); [apply local_raise |].
  apply local_bind.
  { intros w o w'. unfold get_db_conn. destruct (db_connect DB (w_trace w));
      intros [= _ <-]; [apply extends_refl | apply extends_log]. }
  intros _. apply local_bind.
  { intros w o w'. unfold cursor_execute. destruct (db_execute DB (w_trace w) sql);
      intros [= _ <-]; apply extends_log. }
  intros rs. apply local_bind.
  { unfold description_names. destruct (rs_description rs);
      [apply local_ret | apply local_raise]. }
  intros cols. apply local_bind.
  { unfold fetchall. apply local_bind; [apply local_log |].
    intros _. destruct (rs_fetchall rs); [apply local_raise | apply local_ret]. }
  intros rows. apply local_bind; [apply local_log |].
  intros _. apply local_bind; [apply local_log |].
  intros _. apply local_ret.
Qed.

Lemma local_gateway_call psid args : local_to psid (gateway_call args).
Proof.
  unfold gateway_call. apply local_bind; [apply local_lift |].
  intros v. destruct v; simpl; try apply local_raise. apply local_execute_sql.
Qed.

Lemma local_chat psid messages functions :
  local_to psid (chat_completions_create messages functions).
Proof. intros w o w' [= _ <-]. apply extends_log. Qed.

Lemma local_top_chunks psid query k : local_to psid (top_chunks query k).
Proof.
  intros w o w' Hrun. apply top_chunks_frame in Hrun as ->. apply extends_log.
Qed.

Lemma local_tool_call psid messages fc : local_to psid (tool_call messages fc).
Proof.
  unfold tool_call. apply local_bind; [apply local_lift |].
  intros args. apply local_try.
  - apply local_gateway_call.
  - intros e. apply local_ret.
  - intros result. apply local_bind; [apply local_chat |].
    intros followup. apply local_strip_content.
Qed.

(** The part of the general path that follows the first model answer. *)
Lemma local_after_first_answer psid messages (msg : chat_message) :
  local_to psid
    (let* answer :=
       match msg_function_call msg with
       | Some fc => tool_call messages fc
       | None => strip_content (msg_content msg)
       end in
     let* _ := modify_convo (remember psid "assistant" answer) in
     ret answer).
Proof.
  apply local_bind.
  { destruct (msg_function_call msg);
      [apply local_tool_call | apply local_strip_content]. }
  intros answer. apply local_bind; [apply local_remember | intros _; apply local_ret].
Qed.

Lemma local_generate_reply psid user_msg :
  local_to psid (generate_reply psid user_msg).
Proof.
  unfold generate_reply. apply local_bind; [apply local_remember |].
  intros _. repeat (case_match; [apply local_ret |]).
  apply local_bind; [apply local_top_chunks |].
  intros chunks. apply local_bind.
  { intros w o w' [= _ <-]. apply extends_refl. }
  intros hist. apply local_bind; [apply local_chat |].
  intros msg. apply local_after_first_answer.
Qed.

(** X12: Whatever a turn does and however it ends, it changes the stored history
    of no user but its own, and it only adds to the log of outside calls. *)
Theorem generate_reply_touches_one_user (psid user_msg : string)
    (w w' : world) (o : outcome string) :
  generate_reply psid user_msg w = (o, w') →
  (∀ v, v ≠ psid → w_convo w' !! v = w_convo w !! v) ∧
  ∃ evs, w_trace w' = w_trace w ++ evs.
Proof. apply local_generate_reply. Qed.

(** ** Further facts about reply generation *)

(** X13: A message of a routed intent gets the canned text of that intent, the
    user turn is the only thing stored, and nothing is asked of the outside
    world: no embedding, no model request, no query. *)
Theorem generate_reply_routed (psid user_msg : string) (w : world) :
  intent user_msg ≠ "general" →
  ∃ answer,
    generate_reply psid user_msg w
      = (Ok answer, World (remember psid "user" user_msg (w_convo w)) (w_trace w)) ∧
    (intent user_msg = "cutoff" → answer = canned_cutoff) ∧
    (intent user_msg = "billing" → answer = canned_billing) ∧
    (intent user_msg = "outage" → answer = canned_outage).
Proof.
  intros Hi. unfold generate_reply, bind, modify_convo, ret.
  revert Hi. unfold intent.
  destruct (any_in cutoff_keywords _);
    [intros _; exists canned_cutoff; by split_and! |].
  destruct (any_in billing_keywords _);
    [intros _; exists canned_billing; by split_and! |].
  destruct (any_in outage_keywords _);
    [intros _; exists canned_outage; by split_and! |].
  done.
Qed.


(** X15: Arguments that do not decode end the turn with the decoder's exception:
    [json.loads] runs before the guarded step.  The user turn stays stored
    without an assistant turn. *)
Theorem generate_reply_undecodable_arguments (psid user_msg : string)
    (w w1 : world) (chunks : list string) (msg : chat_message)
    (fc : function_call) (e : exn) :
  intent user_msg = "general" →
  top_chunks user_msg default_k
    (World (remember psid "user" user_msg (w_convo w)) (w_trace w))
    = (Ok chunks, w1) →
  chat_create P (w_trace w1)
    (compose_messages chunks (history psid (w_convo w1)) user_msg) true = Ok msg →
  msg_function_call msg = Some fc →
  json_loads (fc_arguments fc) = Raised e →
  ∃ tr, generate_reply psid user_msg w
        = (Raised e, World (remember psid "user" user_msg (w_convo w)) tr).
Proof.
  intros Hi Htop Hchat Hfc Hargs.
  pose proof (top_chunks_frame _ _ _ _ _ Htop) as Hw1. subst w1.
  simpl in Hchat.
  rewrite generate_reply_general by done.
  unfold bind at 1. rewrite Htop.
  unfold bind at 1. unfold gets_convo at 1.
  unfold bind at 1. unfold chat_completions_create at 1. simpl.
  rewrite Hchat, Hfc.
  unfold bind at 1. unfold tool_call, bind at 1, lift_outcome. rewrite Hargs.
  by eexists.
Qed.


Lemma history_remember_snoc psid r t (convo : gmap string (list turn)) :
  ∃ kept, history psid (remember psid r t convo) = kept ++ [Turn r t] ∧
          length kept < 2 * MAX_TURNS.
Proof.
  exists (drop (length (history psid convo) + 1 - MAX_TURNS * 2) (history psid convo)).
  rewrite history_remember, decide_True by done.
  unfold last_n. rewrite length_app. cbn [length].
  rewrite drop_app_le by (unfold MAX_TURNS; lia).
  split; [done |]. rewrite length_drop. unfold MAX_TURNS. lia.
Qed.

(** X17: The first model request of a turn: it is logged right after the
    embedding request, it has at most 2*MAX_TURNS + 2 messages, and it ends
    with the new user message twice, once as the last stored turn and once
    as the message appended to the request. *)
Theorem generate_reply_first_request (psid user_msg : string) (w w1 w' : world)
    (chunks : list string) (o : outcome string) :
  intent user_msg = "general" →
  top_chunks user_msg default_k
    (World (remember psid "user" user_msg (w_convo w)) (w_trace w))
    = (Ok chunks, w1) →
  generate_reply psid user_msg w = (o, w') →
  ∃ before rest,
    w_trace w' =
      w_trace w ++
      [EvEmbed user_msg;
       EvChat (before ++ [Message "user" user_msg; Message "user" user_msg]) true]
      ++ rest ∧
    length (before ++ [Message "user" user_msg; Message "user" user_msg])
      ≤ 2 * MAX_TURNS + 2.
Proof.
  intros Hi Htop.
  pose proof (top_chunks_frame _ _ _ _ _ Htop) as Hw1. subst w1.
  rewrite generate_reply_general by done.
  unfold bind at 1. rewrite Htop.
  unfold bind at 1. unfold gets_convo at 1.
  unfold bind at 1. unfold chat_completions_create at 1. simpl.
  destruct (history_remember_snoc psid "user" user_msg (w_convo w))
    as (kept & Hhist & Hlen).
  rewrite Hhist.
  assert (compose_messages chunks (kept ++ [Turn "user" user_msg]) user_msg
          = ([Message "system" (system_prompt chunks)]
             ++ map (fun t => Message (role t) (text t)) kept)
            ++ [Message "user" user_msg; Message "user" user_msg]) as Hmsgs.
  { unfold compose_messages. rewrite map_app. simpl.
    by rewrite <- !(assoc_L (++)). }
  rewrite Hmsgs.
  set (before := [Message "system" (system_prompt chunks)]
                 ++ map (fun t => Message (role t) (text t)) kept).
  assert (length (before ++ [Message "user" user_msg; Message "user" user_msg])
          ≤ 2 * MAX_TURNS + 2) as Hbound.
  { unfold before. rewrite !length_app, length_map. simpl.
    unfold MAX_TURNS in *. lia. }
  destruct (chat_create P _ _ true) as [msg | e].
  - intros Hrest. apply local_after_first_answer in Hrest as [_ [evs Hevs]].
    simpl in Hevs. exists before, evs. split; [| done].
    by rewrite Hevs, <- !(assoc_L (++)).
  - intros [= _ <-]. exists before, []. split; [| done].
    simpl. by rewrite <- !(assoc_L (++)).
Qed.

(** ** 6. The webhook handler *)

(** A messaging event of the request body as the Messenger platform sends
    it: the sender id is a string; [ev_text] is the text of the event when it
    has a "message" member with a "text" member. *)
Record messaging_event := MessagingEvent {
  ev_sender : string;
  ev_text : option string
}.

(** The decoded request body: its "object" member and, entry by entry, the
    "messaging" lists. *)
Record webhook_body := WebhookBody {
  body_object : option string;
  body_entries : list (list messaging_event)
}.

(** The process state a request runs in: the world of a turn and the posts
    issued to the Send API so far, oldest first, as (recipient, text). *)
Record server := Server {
  srv_world : world;
  srv_posts : list (string * string)
}.

(** [requests.post] to the Send API: [Some e] when the call raises. *)
Variable messenger_post :
  list event → list (string * string) → string → string → option exn.

Definition context_cleared_msg : string := "Conversation context cleared ✅".

(** [send(psid, text)]; the status of the response is not looked at. *)
Definition send (psid text : string) (s : server) : outcome unit * server :=
  let s' := Server (srv_world s) (srv_posts s ++ [(psid, text)]) in
  match messenger_post (w_trace (srv_world s)) (srv_posts s) psid text with
  | Some e => (Raised e, s')
  | None => (Ok tt, s')
  end.

(** [txt.lower() in ("reset", "restart")] *)
Definition is_reset_command (txt : string) : bool :=
  String.eqb (PyStr.lower txt) "reset" || String.eqb (PyStr.lower txt) "restart".

(** The body of the inner loop of [fb_webhook]. *)
Definition handle_event (evt : messaging_event) (s : server)
  : outcome unit * server :=
  let psid := ev_sender evt in
  match ev_text evt with
  | None => (Ok tt, s)
  | Some text =>
      let txt := PyStr.strip text in
      if is_reset_command txt
      then send psid context_cleared_msg
             (Server (World (reset_memory psid (w_convo (srv_world s)))
                        (w_trace (srv_world s)))
                     (srv_posts s))
      else match generate_reply psid txt (srv_world s) with
           | (Ok reply, w') => send psid reply (Server w' (srv_posts s))
           | (Raised e, w') => (Raised e, Server w' (srv_posts s))
           end
  end.

(** [for evt in entry.get("messaging", [])] *)
Fixpoint handle_events (evts : list messaging_event) (s : server)
  : outcome unit * server :=
  match evts with
  | [] => (Ok tt, s)
  | evt :: rest =>
      match handle_event evt s with
      | (Ok _, s') => handle_events rest s'
      | (Raised e, s') => (Raised e, s')
      end
  end.

(** [for entry in data.get("entry", [])] *)
Fixpoint handle_entries (entries : list (list messaging_event)) (s : server)
  : outcome unit * server :=
  match entries with
  | [] => (Ok tt, s)
  | evts :: rest =>
      match handle_events evts s with
      | (Ok _, s') => handle_entries rest s'
      | (Raised e, s') => (Raised e, s')
      end
  end.

(** The POST handler; the result is the pair of body text and status. *)
Definition fb_webhook (data : webhook_body) (s : server)
  : outcome (string * nat) * server :=
  if negb (match body_object data with
           | Some o => String.eqb o "page"
           | None => false
           end)
  then (Ok ("bad object", 400), s)
  else match handle_entries (body_entries data) s with
       | (Ok _, s') => (Ok ("OK", 200), s')
       | (Raised e, s') => (Raised e, s')
       end.

(** Number of events that carry a text. *)
Definition text_events (evts : list messaging_event) : nat :=
  length (List.filter (fun evt => bool_decide (is_Some (ev_text evt))) evts).

Lemma send_ok psid text s s' :
  send psid text s = (Ok tt, s') →
  s' = Server (srv_world s) (srv_posts s ++ [(psid, text)]).
Proof. unfold send. by destruct (messenger_post _ _ _ _); intros [= <-]. Qed.

Lemma handle_event_posts evt s s' :
  handle_event evt s = (Ok tt, s') →
  length (srv_posts s') = length (srv_posts s) + text_events [evt].
Proof.
  unfold handle_event, text_events. simpl.
  destruct (ev_text evt) as [text |]; simpl.
  - destruct (is_reset_command _).
    + intros Hs%send_ok. subst s'. simpl. rewrite length_app. simpl. lia.
    + destruct (generate_reply _ _ _) as [[reply | e] w']; [| discriminate].
      intros Hs%send_ok. subst s'. simpl. rewrite length_app. simpl. lia.
  - intros [= <-]. lia.
Qed.

Lemma handle_events_posts evts : ∀ s s',
  handle_events evts s = (Ok tt, s') →
  length (srv_posts s') = length (srv_posts s) + text_events evts.
Proof.
  induction evts as [| evt rest IH]; intros s s'.
  - intros [= <-]. unfold text_events. simpl. lia.
  - simpl. destruct (handle_event evt s) as [[[] | e] s1] eqn:H1; [| discriminate].
    intros H2. apply handle_event_posts in H1. apply IH in H2.
    unfold text_events in *. simpl in *.
    destruct (bool_decide (is_Some (ev_text evt))); simpl in *; lia.
Qed.

Lemma handle_entries_posts entries : ∀ s s',
  handle_entries entries s = (Ok tt, s') →
  length (srv_posts s') = length (srv_posts s) + text_events (concat entries).
Proof.
  induction entries as [| evts rest IH]; intros s s'.
  - intros [= <-]. unfold text_events. simpl. lia.
  - simpl. destruct (handle_events evts s) as [[[] | e] s1] eqn:H1; [| discriminate].
    intros H2. apply handle_events_posts in H1. apply IH in H2.
    unfold text_events in *. rewrite List.filter_app, length_app. lia.
Qed.

(** A body whose "object" is not "page" is answered 400 and nothing in it is
    processed, whatever entries it carries. *)
Theorem fb_webhook_bad_object (data : webhook_body) (s : server) :
  body_object data ≠ Some "page" →
  fb_webhook data s = (Ok ("bad object", 400), s).
Proof.
  intros Hobj. unfold fb_webhook.
  destruct (body_object data) as [o |]; [| done].
  destruct (String.eqb_spec o "page") as [-> | _]; [by destruct Hobj | done].
Qed.

(** X18: When the handler returns, it has issued one post per event that carries
    a text and none for the others, and it answers 200. *)
Theorem fb_webhook_one_post_per_text (data : webhook_body) (s s' : server)
    (r : string * nat) :
  body_object data = Some "page" →
  fb_webhook data s = (Ok r, s') →
  r = ("OK", 200) ∧
  length (srv_posts s')
    = length (srv_posts s) + text_events (concat (body_entries data)).
Proof.
  intros Hobj. unfold fb_webhook. rewrite Hobj. simpl.
  destruct (handle_entries (body_entries data) s) as [[[] | e] s1] eqn:Hrun;
    [| discriminate].
  intros [= <- <-]. split; [done |]. by apply handle_entries_posts.
Qed.



End Bot.

(* ===================================================================== *)
(** * A small concrete world                                               *)
(* ===================================================================== *)

(** Fixed-point arithmetic in thousandths on integer vectors, standing in
    for the [float32] arrays. *)
Definition fx_sum_prod (v q : list Z) : Z := foldr Z.add 0%Z (zip_with Z.mul v q).

#[global] Instance fixed_point : Numeric Z (list Z) := {|
  np_dot v q := (1000 * fx_sum_prod v q)%Z;
  np_norm v := Z.sqrt (1000000 * fx_sum_prod v v);
  f_mul a b := (a * b / 1000)%Z;
  f_div a b := (1000 * a / b)%Z;
  f_ge a b := (b <=? a)%Z;
  f_threshold := 450%Z
|}.

Definition demo_chunks : list string :=
  ["NET METERING"; "ELECTRICITY RATES"; "CAPITAL PROJECTS"].

Definition demo_vectors : list (list Z) := [[1; 0]; [0; 1]; [1; 1]]%Z.

(** A stand-in for the index search: the candidates 0, 2, 1 in this order,
    cut or padded with -1 to [k] entries, with distances left at zero. *)
Definition demo_search (q : list Z) (k : nat) : list Z * list Z :=
  (replicate k 0%Z, take k ([0; 2; 1]%Z ++ replicate k (-1)%Z)).

Definition demo_embed (query : string) : outcome (list Z) :=
  if String.eqb query "net metering" then Ok [1; 0]%Z else Ok [-1; 0]%Z.

Definition dq : string := String "034"%char EmptyString.

(** The JSON text of an argument object whose [sql] member is a DROP
    statement. *)
Definition drop_table_args : string :=
  "{" +:+ dq +:+ "sql" +:+ dq +:+ ": " +:+ dq +:+ "DROP TABLE SystemLoss" +:+ dq +:+ "}".

(** A model that asks for the function when it is declared. *)
Definition demo_provider : provider (list Z) :=
  Provider
    (fun _ query => demo_embed query)
    (fun _ _ functions =>
       if functions
       then Ok (ChatMessage None (Some (FunctionCall "execute_sql" drop_table_args)))
       else Ok (ChatMessage (Some "Done.") None)).


Definition demo_json_loads (s : string) : outcome json :=
  if String.eqb s drop_table_args
  then Ok (JDict [("sql", JStr "DROP TABLE SystemLoss")])
  else Raised (JSONDecodeError "Expecting value").

Definition demo_json_dumps (rows : list (list (string * dbval))) : string := "[]".

Definition demo_db : database :=
  Database
    (fun _ => None)
    (fun _ _ => inr (ResultSet (Some ["YEAR_MONTH_DAY"; "SystemLoss"])
                       (inr [[DDate "2025-03-01"; DFloat "7.9"]]))).

(** A data source on which every statement fails at [cur.execute]. *)
Definition broken_db : database :=
  Database (fun _ => None) (fun _ _ => inl "Invalid object name 'Missing'.").

Definition world0 : world := World ∅ [].

(* ===================================================================== *)
(** * The theorems on the concrete world                                   *)
(* ===================================================================== *)



(** C6, at a statement on which [cur.execute] raises: the exception leaves
    [execute_sql] while the connection opened by the call is still open. *)
Theorem execute_sql_leaks_connection :
  execute_sql broken_db "SELECT * FROM Missing" world0
    = (Raised (DatabaseError "Invalid object name 'Missing'."),
       World ∅ [EvConnect; EvExecute "SELECT * FROM Missing"]) ∧
  open_connections [EvConnect; EvExecute "SELECT * FROM Missing"] 0 = 1.
Proof. split; reflexivity. Qed.



Lemma generate_reply_gateway_failure_witness :
  ∃ w',
    generate_reply demo_provider demo_db demo_chunks demo_vectors demo_search
      demo_json_loads demo_json_dumps "1001" "How many kWh loss last month?" world0
    = (Ok "⚠️ SQL error: Only SELECT queries are allowed.", w') ∧
    history "1001" (w_convo w')
    = [Turn "user" "How many kWh loss last month?";
       Turn "assistant" "⚠️ SQL error: Only SELECT queries are allowed."] ∧
    chat_requests (w_trace w') = 1.
Proof.
  edestruct (generate_reply_gateway_failure demo_provider demo_db demo_chunks
               demo_vectors demo_search demo_json_loads demo_json_dumps
               "1001" "How many kWh loss last month?" world0)
    as (Hrun & Hn & _).
  - reflexivity.
  - vm_compute. reflexivity.
  - reflexivity.
  - reflexivity.
  - reflexivity.
  - vm_compute. reflexivity.
  - eexists. split; [exact Hrun |]. split; [vm_compute; reflexivity | exact Hn].
Defined.

(* ===================================================================== *)
(** * Further properties of the conversation memory                        *)
(* ===================================================================== *)

Lemma remember_lookup p u r t (convo : gmap string (list turn)) :
  remember p r t convo !! u =
  if decide (p = u)
  then Some (last_n (MAX_TURNS * 2) (history u convo ++ [Turn r t]))
  else convo !! u.
Proof.
  case_decide as Hpu; [| by apply remember_lookup_ne].
  subst u. unfold remember. rewrite history_insert.
  destruct (Nat.ltb_spec (MAX_TURNS * 2) (length (history p convo ++ [Turn r t])))
    as [Hlt | Hge].
  - by rewrite lookup_insert_eq.
  - by rewrite lookup_insert_eq, last_n_all.
Qed.

(** X1: One append puts the new turn at the end, keeps before it a suffix of the
    history that was there, and leaves min(n + 1, 2*MAX_TURNS) entries when
    there were n. *)
Theorem remember_appends_at_end (psid r t : string)
    (convo : gmap string (list turn)) :
  ∃ kept,
    remember psid r t convo !! psid = Some (kept ++ [Turn r t]) ∧
    kept `suffix_of` history psid convo ∧
    length (kept ++ [Turn r t])
      = min (S (length (history psid convo))) (2 * MAX_TURNS).
Proof.
  exists (drop (length (history psid convo) + 1 - MAX_TURNS * 2) (history psid convo)).
  rewrite remember_lookup, decide_True by done.
  unfold last_n. rewrite length_app. cbn [length].
  rewrite drop_app_le by (unfold MAX_TURNS; lia).
  split_and!; [done | apply suffix_drop |].
  rewrite length_app, length_drop. cbn [length]. unfold MAX_TURNS. lia.
Qed.

(** X2: A reset wipes what an append stored, and an append after a reset starts
    the history afresh with that single turn. *)
Theorem reset_memory_remember (psid r t : string)
    (convo : gmap string (list turn)) :
  reset_memory psid (remember psid r t convo) = reset_memory psid convo ∧
  remember psid r t (reset_memory psid convo) !! psid = Some [Turn r t].
Proof.
  split.
  - apply map_eq. intros u. unfold reset_memory. rewrite !lookup_delete.
    case_decide; [done |]. by rewrite remember_lookup_ne.
  - rewrite remember_lookup, decide_True by done.
    rewrite history_reset, decide_True by done. done.
Qed.

(** X3: Operations on two different users can be swapped. *)
Theorem convo_ops_commute (u v r t r' t' : string)
    (convo : gmap string (list turn)) :
  u ≠ v →
  remember u r t (remember v r' t' convo)
    = remember v r' t' (remember u r t convo) ∧
  reset_memory u (remember v r' t' convo)
    = remember v r' t' (reset_memory u convo) ∧
  reset_memory u (reset_memory v convo) = reset_memory v (reset_memory u convo).
Proof.
  intros Huv. split_and!; apply map_eq; intros k.
  - rewrite !remember_lookup. unfold history. rewrite !remember_lookup.
    repeat case_decide; congruence.
  - unfold reset_memory. rewrite lookup_delete, !remember_lookup.
    unfold history. rewrite !lookup_delete.
    repeat case_decide; congruence.
  - unfold reset_memory. by rewrite delete_delete.
Qed.

Lemma convo_ops_commute_witness :
  remember "1001" "user" "hi" (remember "2002" "user" "hello" ∅)
    = remember "2002" "user" "hello" (remember "1001" "user" "hi" ∅).
Proof.
  apply (convo_ops_commute "1001" "2002" "user" "hi" "user" "hello" ∅).
  discriminate.
Defined.

(* ===================================================================== *)
(** * Further properties of the intent classifier                          *)
(* ===================================================================== *)

Lemma lower_char_idemp (c : ascii) :
  PyStr.lower_char (PyStr.lower_char c) = PyStr.lower_char c.
Proof. destruct c as [[] [] [] [] [] [] [] []]; vm_compute; reflexivity. Qed.

Lemma lower_idemp (s : string) : PyStr.lower (PyStr.lower s) = PyStr.lower s.
Proof.
  induction s as [| c s IH]; simpl; [done |].
  by rewrite lower_char_idemp, IH.
Qed.

(** X4: The category depends on the message up to letter case only: two messages
    with the same lower-casing get the same category, and lower-casing a
    message does not change its category. *)
Theorem intent_case_insensitive (a b : string) :
  (PyStr.lower a = PyStr.lower b → intent a = intent b) ∧
  intent (PyStr.lower a) = intent a.
Proof.
  split.
  - intros Hab. unfold intent. by rewrite Hab.
  - unfold intent. by rewrite lower_idemp.
Qed.

Lemma intent_case_insensitive_witness :
  intent "PAMUTOL ugma?" = intent "pamutol UGMA?".
Proof.
  apply (proj1 (intent_case_insensitive "PAMUTOL ugma?" "pamutol UGMA?")).
  reflexivity.
Defined.

(** The rank of a category in the priority chain. *)
Definition priority (category : string) : nat :=
  if String.eqb category "cutoff" then 3
  else if String.eqb category "billing" then 2
  else if String.eqb category "outage" then 1
  else 0.

Lemma mentions_in_context (kws : list string) (pre msg post : string) :
  mentions kws msg → mentions kws (pre +:+ msg +:+ post).
Proof.
  intros (w & a & s & b & Hin & Hs & ->).
  exists w, (pre +:+ a), s, (b +:+ post). split_and!; [done.. |].
  clear. induction pre as [| c pre IH].
  - rewrite !PyStr.app_nil_l. induction a as [| c a IH]; [| by rewrite !PyStr.app_cons, IH].
    rewrite !PyStr.app_nil_l. induction s as [| c s IH]; [done |].
    by rewrite !PyStr.app_cons, IH.
  - by rewrite !PyStr.app_cons, IH.
Qed.

(** X5: Text added before or after a message never lowers its category in the
    chain cutoff > billing > outage > general; in particular a cutoff message
    stays a cutoff message inside any longer text. *)
Theorem intent_monotone_in_context (pre msg post : string) :
  priority (intent msg) ≤ priority (intent (pre +:+ msg +:+ post)) ∧
  (intent msg = "cutoff" → intent (pre +:+ msg +:+ post) = "cutoff").
Proof.
  pose proof (mentions_in_context cutoff_keywords pre msg post) as Hc.
  pose proof (mentions_in_context billing_keywords pre msg post) as Hb.
  pose proof (mentions_in_context outage_keywords pre msg post) as Ho.
  rewrite <- !any_in_mentions in Hc, Hb, Ho. unfold intent.
  destruct (any_in cutoff_keywords (PyStr.lower msg)),
    (any_in cutoff_keywords (PyStr.lower (pre +:+ msg +:+ post))),
    (any_in billing_keywords (PyStr.lower msg)),
    (any_in billing_keywords (PyStr.lower (pre +:+ msg +:+ post))),
    (any_in outage_keywords (PyStr.lower msg)),
    (any_in outage_keywords (PyStr.lower (pre +:+ msg +:+ post)));
    first [ by specialize (Hc eq_refl)
          | by specialize (Hb eq_refl)
          | by specialize (Ho eq_refl)
          | split; [vm_compute; lia | intros; first [done | discriminate]] ].
Qed.

Lemma intent_monotone_in_context_witness :
  intent ("Hello, " +:+ "when is the cutoff" +:+ " for my bill?") = "cutoff".
Proof.
  apply (proj2 (intent_monotone_in_context "Hello, " "when is the cutoff"
                  " for my bill?")).
  reflexivity.
Defined.

(* ===================================================================== *)
(** * Further properties of the gateway validation and of its records      *)
(* ===================================================================== *)










Lemma assoc_dict_set {V : Type} (k k' : string) (v : V) (d : list (string * V)) :
  assoc k (dict_set k' v d) = if String.eqb k' k then Some v else assoc k d.
Proof.
  induction d as [| [k0 v0] d IH]; [done |]. simpl.
  destruct (String.eqb_spec k0 k') as [-> | Hne]; simpl.
  - by destruct (String.eqb k' k).
  - rewrite IH. destruct (String.eqb_spec k0 k) as [-> | Hne']; [| done].
    by destruct (String.eqb_spec k' k).
Qed.

Lemma keys_dict_set {V : Type} (k k' : string) (v : V) (d : list (string * V)) :
  k ∈ (dict_set k' v d).*1 ↔ k = k' ∨ k ∈ d.*1.
Proof.
  induction d as [| [k0 v0] d IH]; simpl.
  - rewrite list_elem_of_singleton. split; [by left |].
    intros [Hk | Hk]; [done | by apply elem_of_nil in Hk].
  - destruct (String.eqb_spec k0 k') as [-> | Hne]; simpl.
    + rewrite !elem_of_cons. tauto.
    + rewrite !elem_of_cons, IH. tauto.
Qed.

Lemma NoDup_dict_set {V : Type} (k : string) (v : V) (d : list (string * V)) :
  NoDup d.*1 → NoDup (dict_set k v d).*1.
Proof.
  induction d as [| [k0 v0] d IH]; simpl; intros Hd.
  - apply NoDup_singleton.
  - apply NoDup_cons in Hd as [Hk0 Hd].
    destruct (String.eqb_spec k0 k) as [-> | Hne]; simpl.
    + by apply NoDup_cons.
    + apply NoDup_cons. split; [| by apply IH].
      rewrite keys_dict_set. intros [-> | Hin]; done.
Qed.

Lemma assoc_app {V : Type} (k : string) (a b : list (string * V)) :
  assoc k (a ++ b) = match assoc k a with Some v => Some v | None => assoc k b end.
Proof.
  induction a as [| [k0 v0] a IH]; [done |]. simpl.
  by destruct (String.eqb k0 k).
Qed.

Lemma dict_fold_spec {V : Type} (pairs : list (string * V)) :
  ∀ d : list (string * V),
    NoDup d.*1 →
    NoDup (foldl (fun d kv => dict_set kv.1 kv.2 d) d pairs).*1 ∧
    ∀ k, assoc k (foldl (fun d kv => dict_set kv.1 kv.2 d) d pairs)
         = match assoc k (reverse pairs) with
           | Some v => Some v
           | None => assoc k d
           end.
Proof.
  induction pairs as [| [k0 v0] pairs IH]; intros d Hd; [done |].
  simpl. destruct (IH (dict_set k0 v0 d)) as [Hnd Hlook];
    [by apply NoDup_dict_set |].
  split; [done |]. intros k.
  rewrite Hlook, reverse_cons, assoc_app, assoc_dict_set. simpl.
  by destruct (assoc k (reverse pairs)), (String.eqb k0 k).
Qed.

(** X7: The record built from a row, [dict(zip(cols, row))], has each column name
    once, and holds for a name the value of the last column of that name:
    when two columns share a name the earlier value is dropped. *)
Theorem record_last_column_wins (cols : list string) (row : list dbval) :
  NoDup (dict_of_pairs (zip cols row)).*1 ∧
  ∀ c, assoc c (dict_of_pairs (zip cols row)) = assoc c (reverse (zip cols row)).
Proof.
  destruct (dict_fold_spec (zip cols row) []) as [Hnd Hlook]; [apply NoDup_nil_2 |].
  split; [exact Hnd |]. intros c. unfold dict_of_pairs. rewrite Hlook.
  by destruct (assoc c (reverse (zip cols row))).
Qed.

(* ===================================================================== *)
(** * 0. Start-up configuration                                            *)
(* ===================================================================== *)

(** [not v] for a value of [os.getenv]: unset, or set to the empty string. *)
Definition is_unset (v : option string) : bool :=
  match v with
  | Some (String _ _) => false
  | _ => true
  end.

(** The keys of the dict the second check runs over, in its order. *)
Definition required_vars : list string :=
  ["FB_APP_ID"; "FB_APP_SECRET"; "PAGE_ACCESS_TOKEN"; "VERIFY_TOKEN";
   "OPENAI_API_KEY"; "DB_HOST"; "DB_NAME"; "DB_USER"; "DB_PASS"].

(** The two checks run at import time on the environment: [Some msg] is the
    message of the [RuntimeError] raised, [None] means the module goes on. *)
Definition check_environment (env : gmap string string) : option string :=
  if is_unset (env !! "NGROK_AUTH_TOKEN")
  then Some "Missing NGROK_AUTH_TOKEN in .env"
  else
    match List.filter (fun k => is_unset (env !! k)) required_vars with
    | [] => None
    | missing => Some ("Missing environment variables: " +:+ PyStr.join ", " missing)
    end.

Lemma filter_nil_iff {A : Type} (f : A → bool) (l : list A) :
  List.filter f l = [] ↔ ∀ x, x ∈ l → f x = false.
Proof.
  induction l as [| a l IH]; simpl.
  - split; [intros _ x Hx; by apply elem_of_nil in Hx | done].
  - destruct (f a) eqn:Ha.
    + split; [discriminate |]. intros Hall.
      rewrite (Hall a) in Ha; [discriminate | left].
    + rewrite IH. split.
      * intros Hall x [-> | Hx]%elem_of_cons; auto.
      * intros Hall x Hx. apply Hall. by right.
Qed.

Lemma is_unset_false (v : option string) :
  is_unset v = false ↔ ∃ c s, v = Some (String c s).
Proof.
  destruct v as [[| c s] |]; simpl; split; try done.
  - intros (c & s & [=]).
  - intros _. by exists c, s.
  - intros (c & s & [=]).
Qed.

(** X21: The module gets past its configuration checks exactly when the ngrok
    token and the nine other variables are all set to a non-empty string. *)
Theorem check_environment_passes_iff (env : gmap string string) :
  check_environment env = None ↔
  ∀ k, k ∈ "NGROK_AUTH_TOKEN" :: required_vars →
       ∃ c s, env !! k = Some (String c s).
Proof.
  unfold check_environment. split.
  - destruct (is_unset (env !! "NGROK_AUTH_TOKEN")) eqn:Hng; [discriminate |].
    destruct (List.filter _ required_vars) eqn:Hf; [| discriminate].
    intros _ k [-> | Hk]%elem_of_cons; apply is_unset_false; [done |].
    by apply (proj1 (filter_nil_iff _ _) Hf).
  - intros Hall.
    assert (is_unset (env !! "NGROK_AUTH_TOKEN") = false) as ->.
    { apply is_unset_false, Hall. left. }
    assert (List.filter (fun k => is_unset (env !! k)) required_vars = []) as ->;
      [| done].
    apply filter_nil_iff. intros k Hk. apply is_unset_false, Hall. by right.
Qed.

(* ===================================================================== *)
(** * 2. Webhook registration                                              *)
(* ===================================================================== *)

(** The answer to one probe of the health endpoint: a response with its
    status code, or a [requests.exceptions.RequestException]. *)
Inductive probe :=
| ProbeStatus (code : nat)
| ProbeUnreachable.

(** What [register_webhook] does to the outside, oldest first. *)
Inductive net_event :=
| NetProbe
| NetSleep
| NetTunnel
| NetTeardown (access_token : string)
| NetRegister (access_token callback_url verify_token : string)
| NetPrint (line : string).

(** How the function is left. *)
Inductive reg_exit :=
| RegReturned
| RegRaised (msg : string)        (* an exception of ngrok or requests *)
| RegHTTPError (status : nat)     (* raised by [resp.raise_for_status()] *)
| RegBodyNotJSON.                 (* raised by [resp.json()] *)

(** The network as the function meets it; an answer may depend on what was
    done before.  For a request, [inl msg] means the call itself raises. *)
Record network := Network {
  net_health : list net_event → probe;
  net_tunnel : list net_event → string + string;
  net_teardown : list net_event → string + nat;
  net_register : list net_event → string + (nat * option string)
}.

(** [resp.raise_for_status()] raises for the 4xx and 5xx codes. *)
Definition is_http_error (status : nat) : bool :=
  (400 <=? status) && (status <? 600).

(** The [for _ in range(n)] loop with its [break]: [true] when a probe was
    answered 200. A probe that raises is followed by a sleep; one answered
    with another status is not. *)
Fixpoint wait_for_flask (N : network) (n : nat) (tr : list net_event)
  : bool * list net_event :=
  match n with
  | 0 => (false, tr)
  | S n' =>
      match net_health N tr with
      | ProbeStatus code =>
          if code =? 200 then (true, tr ++ [NetProbe])
          else wait_for_flask N n' (tr ++ [NetProbe])
      | ProbeUnreachable => wait_for_flask N n' (tr ++ [NetProbe; NetSleep])
      end
  end.

Definition flask_down_msg : string :=
  "⚠️ Flask did not start; skipping webhook registration.".

Definition register_webhook (FB_APP_ID FB_APP_SECRET VERIFY_TOKEN : string)
    (N : network) (tr : list net_event) : reg_exit * list net_event :=
  match wait_for_flask N 20 tr with
  | (false, tr1) => (RegReturned, tr1 ++ [NetPrint flask_down_msg])
  | (true, tr1) =>
      match net_tunnel N tr1 with
      | inl msg => (RegRaised msg, tr1)
      | inr public_url =>
          let token := FB_APP_ID +:+ "|" +:+ FB_APP_SECRET in
          let tr2 :=
            tr1 ++ [NetTunnel; NetPrint (" * ngrok tunnel URL → " +:+ public_url)] in
          match net_teardown N tr2 with
          | inl msg => (RegRaised msg, tr2 ++ [NetTeardown token])
          | inr _ =>
              (* an error status of the teardown is caught and passed over *)
              let tr3 := tr2 ++ [NetTeardown token] in
              let tr4 :=
                tr3 ++ [NetRegister token (public_url +:+ "/webhook") VERIFY_TOKEN] in
              match net_register N tr3 with
              | inl msg => (RegRaised msg, tr4)
              | inr (status, body) =>
                  if is_http_error status then (RegHTTPError status, tr4)
                  else match body with
                       | None => (RegBodyNotJSON, tr4)
                       | Some b =>
                           (RegReturned,
                            tr4 ++ [NetPrint (" * Facebook webhook registered: " +:+ b)])
                       end
              end
          end
      end
  end.

Definition is_probe (ev : net_event) : bool :=
  match ev with NetProbe => true | _ => false end.

Definition is_probe_or_sleep (ev : net_event) : bool :=
  match ev with NetProbe | NetSleep => true | _ => false end.

Lemma wait_for_flask_spec (N : network) (n : nat) : ∀ tr,
  ∃ evs,
    (wait_for_flask N n tr).2 = tr ++ evs ∧
    length (List.filter is_probe evs) ≤ n ∧
    forallb is_probe_or_sleep evs = true ∧
    ((wait_for_flask N n tr).1 = false →
     length (List.filter is_probe evs) = n) ∧
    ((wait_for_flask N n tr).1 = true →
     ∃ tr0, net_health N tr0 = ProbeStatus 200).
Proof.
  induction n as [| n IH]; intros tr.
  - exists []. simpl. rewrite app_nil_r. by split_and!.
  - simpl. destruct (net_health N tr) as [code |] eqn:Hh.
    + destruct (Nat.eqb_spec code 200) as [-> | Hne].
      * exists [NetProbe]. simpl. split_and!; [done | lia | done | done |].
        intros _. by exists tr.
      * destruct (IH (tr ++ [NetProbe])) as (evs & Htr & Hle & Hall & Hf & Ht).
        exists (NetProbe :: evs). rewrite Htr, <- (assoc_L (++)). simpl.
        split_and!; [done | lia | done | | done].
        intros Hfalse. by rewrite (Hf Hfalse).
    + destruct (IH (tr ++ [NetProbe; NetSleep])) as (evs & Htr & Hle & Hall & Hf & Ht).
      exists (NetProbe :: NetSleep :: evs). rewrite Htr, <- (assoc_L (++)). simpl.
      split_and!; [done | lia | done | | done].
      intros Hfalse. by rewrite (Hf Hfalse).
Qed.

(** X22: When no probe of the health endpoint is ever answered 200, the function
    probes exactly 20 times, opens no tunnel, sends nothing to the Graph API,
    prints the warning and returns without an exception. *)
Theorem register_webhook_gives_up (app_id app_secret verify : string)
    (N : network) (tr : list net_event) :
  (∀ tr0, net_health N tr0 ≠ ProbeStatus 200) →
  ∃ evs,
    register_webhook app_id app_secret verify N tr
      = (RegReturned, tr ++ evs ++ [NetPrint flask_down_msg]) ∧
    length (List.filter is_probe evs) = 20 ∧
    forallb is_probe_or_sleep evs = true.
Proof.
  intros Hdown. unfold register_webhook.
  destruct (wait_for_flask_spec N 20 tr) as (evs & Htr & _ & Hall & Hf & Ht).
  destruct (wait_for_flask N 20 tr) as [[] tr1]; simpl in *.
  - destruct Ht as [tr0 Hup]; [done |]. by destruct (Hdown tr0).
  - exists evs. subst tr1. rewrite <- (assoc_L (++)). split_and!; auto.
Qed.

(** X23: Once the health endpoint has answered and the tunnel is open, the
    registration request is sent whatever status the teardown request got:
    an error status of the teardown does not stop the registration.  The
    callback is the tunnel URL followed by /webhook. *)
Theorem register_webhook_teardown_status_ignored
    (app_id app_secret verify : string) (N : network)
    (tr tr1 : list net_event) (public_url : string) (status : nat) :
  wait_for_flask N 20 tr = (true, tr1) →
  net_tunnel N tr1 = inr public_url →
  net_teardown N
    (tr1 ++ [NetTunnel; NetPrint (" * ngrok tunnel URL → " +:+ public_url)])
    = inr status →
  NetRegister (app_id +:+ "|" +:+ app_secret) (public_url +:+ "/webhook") verify
    ∈ (register_webhook app_id app_secret verify N tr).2.
Proof.
  intros Hwait Htunnel Htear. unfold register_webhook.
  rewrite Hwait, Htunnel. cbn zeta. rewrite Htear.
  destruct (net_register N _) as [msg | [st [b |]]]; simpl;
    [| destruct (is_http_error st); simpl | destruct (is_http_error st); simpl];
    rewrite ?elem_of_app, ?elem_of_cons; tauto.
Qed.

(* ===================================================================== *)
(** * More of the concrete world                                           *)
(* ===================================================================== *)

(** A Send API that takes every post. *)
Definition demo_post (tr : list event) (posts : list (string * string))
    (psid text : string) : option exn := None.

(** A model that answers in text. *)
Definition chatty_provider : provider (list Z) :=
  Provider
    (fun _ query => demo_embed query)
    (fun _ _ _ => Ok (ChatMessage (Some "  Our main office is in Toledo City.  ") None)).




Definition failing_json_loads (s : string) : outcome json :=
  Raised (JSONDecodeError "Expecting value").

Definition empty_object_loads (s : string) : outcome json := Ok (JDict []).

(** A machine on which Flask never comes up. *)
Definition dead_network : network :=
  Network (fun _ => ProbeUnreachable) (fun _ => inl "no tunnel")
          (fun _ => inl "unreachable") (fun _ => inl "unreachable").

(** A machine on which everything answers, the teardown with a 400. *)
Definition live_network : network :=
  Network (fun _ => ProbeStatus 200) (fun _ => inr "https://c3.ngrok.io")
          (fun _ => inr 400) (fun _ => inr (200, Some "{'success': True}")).

Definition server0 : server := Server world0 [].


Lemma execute_sql_success_witness :
  execute_sql demo_db "SELECT * FROM TSD.SystemLoss" world0
  = (Ok [[("YEAR_MONTH_DAY", DDate "2025-03-01"); ("SystemLoss", DFloat "7.9")]],
     World ∅ [EvConnect; EvExecute "SELECT * FROM TSD.SystemLoss"; EvFetchall;
              EvCursorClose; EvConnClose]).
Proof.
  apply (execute_sql_success demo_db "SELECT * FROM TSD.SystemLoss" world0
           (ResultSet (Some ["YEAR_MONTH_DAY"; "SystemLoss"])
                      (inr [[DDate "2025-03-01"; DFloat "7.9"]]))
           ["YEAR_MONTH_DAY"; "SystemLoss"]
           [[DDate "2025-03-01"; DFloat "7.9"]]); reflexivity.
Defined.

Lemma execute_sql_raise_cases_witness :
  open_connections [EvConnect; EvExecute "SELECT * FROM Missing"] 0 = 1.
Proof.
  destruct (execute_sql_raise_cases broken_db "SELECT * FROM Missing" world0
              (World ∅ [EvConnect; EvExecute "SELECT * FROM Missing"])
              (DatabaseError "Invalid object name 'Missing'.") eq_refl)
    as [[Hsame _] | (_ & _ & Hopen)].
  - discriminate.
  - apply (Hopen 0).
Defined.

Lemma tool_call_unusable_arguments_witness :
  ∃ e,
    tool_call demo_provider demo_db empty_object_loads demo_json_dumps []
      (FunctionCall "execute_sql" "{}") world0
    = (Ok ("⚠️ SQL error: " +:+ exn_str e), world0).
Proof.
  apply (tool_call_unusable_arguments demo_provider demo_db empty_object_loads
           demo_json_dumps [] (FunctionCall "execute_sql" "{}") (JDict []) world0).
  - reflexivity.
  - intros s. discriminate.
Defined.

Lemma top_chunks_keeps_search_order_witness :
  top_chunks demo_provider demo_chunks demo_vectors demo_search
    "net metering" 3 world0
  = (Ok ["NET METERING"; "CAPITAL PROJECTS"], World ∅ [EvEmbed "net metering"]).
Proof.
  rewrite (top_chunks_keeps_search_order demo_provider demo_chunks demo_vectors
             demo_search "net metering" 3 world0 [1; 0]%Z).
  - reflexivity.
  - reflexivity.
  - reflexivity.
  - vm_compute. repeat constructor; discriminate.
  - reflexivity.
Defined.

Lemma generate_reply_touches_one_user_witness :
  w_convo
    (generate_reply demo_provider demo_db demo_chunks demo_vectors demo_search
       demo_json_loads demo_json_dumps "1001" "How many kWh loss last month?"
       (World {["2002" := [Turn "user" "hello"]]} [])).2 !! "2002"
  = Some [Turn "user" "hello"].
Proof.
  destruct (generate_reply_touches_one_user demo_provider demo_db demo_chunks
              demo_vectors demo_search demo_json_loads demo_json_dumps
              "1001" "How many kWh loss last month?"
              (World {["2002" := [Turn "user" "hello"]]} [])
              (generate_reply demo_provider demo_db demo_chunks demo_vectors
                 demo_search demo_json_loads demo_json_dumps "1001"
                 "How many kWh loss last month?"
                 (World {["2002" := [Turn "user" "hello"]]} [])).2
              (generate_reply demo_provider demo_db demo_chunks demo_vectors
                 demo_search demo_json_loads demo_json_dumps "1001"
                 "How many kWh loss last month?"
                 (World {["2002" := [Turn "user" "hello"]]} [])).1)
    as [Hframe _].
  - by destruct (generate_reply _ _ _ _ _ _ _ _ _ _).
  - rewrite (Hframe "2002"); [apply lookup_singleton_eq | discriminate].
Defined.

Lemma generate_reply_routed_witness :
  ∃ answer,
    generate_reply demo_provider demo_db demo_chunks demo_vectors demo_search
      demo_json_loads demo_json_dumps "1001" "Brownout in Balamban" world0
    = (Ok answer, World (remember "1001" "user" "Brownout in Balamban" ∅) []) ∧
    answer = canned_outage.
Proof.
  destruct (generate_reply_routed demo_provider demo_db demo_chunks demo_vectors
              demo_search demo_json_loads demo_json_dumps
              "1001" "Brownout in Balamban" world0)
    as (answer & Hrun & _ & _ & Hout); [discriminate |].
  exists answer. split; [exact Hrun | by apply Hout].
Defined.


Lemma generate_reply_undecodable_arguments_witness :
  ∃ tr,
    generate_reply demo_provider demo_db demo_chunks demo_vectors demo_search
      failing_json_loads demo_json_dumps "1001" "Where is your office?" world0
    = (Raised (JSONDecodeError "Expecting value"),
       World (remember "1001" "user" "Where is your office?" ∅) tr).
Proof.
  eapply (generate_reply_undecodable_arguments demo_provider demo_db demo_chunks
            demo_vectors demo_search failing_json_loads demo_json_dumps
            "1001" "Where is your office?" world0).
  - reflexivity.
  - vm_compute. reflexivity.
  - reflexivity.
  - reflexivity.
  - reflexivity.
Defined.


Lemma generate_reply_first_request_witness :
  ∃ before rest,
    w_trace
      (generate_reply chatty_provider demo_db demo_chunks demo_vectors demo_search
         demo_json_loads demo_json_dumps "1001" "Where is your office?" world0).2
    = [] ++
      [EvEmbed "Where is your office?";
       EvChat (before ++ [Message "user" "Where is your office?";
                          Message "user" "Where is your office?"]) true]
      ++ rest.
Proof.
  edestruct (generate_reply_first_request chatty_provider demo_db demo_chunks
               demo_vectors demo_search demo_json_loads demo_json_dumps
               "1001" "Where is your office?" world0)
    as (before & rest & Htrace & _).
  - reflexivity.
  - vm_compute. reflexivity.
  - apply surjective_pairing.
  - exists before, rest. exact Htrace.
Defined.

Lemma fb_webhook_one_post_per_text_witness :
  length
    (srv_posts
       (fb_webhook chatty_provider demo_db demo_chunks demo_vectors demo_search
          demo_json_loads demo_json_dumps demo_post
          (WebhookBody (Some "page")
             [[MessagingEvent "1001" (Some "Where is your office?");
               MessagingEvent "1001" None];
              [MessagingEvent "2002" (Some " reset ")]])
          server0).2)
  = 2.
Proof.
  edestruct (fb_webhook_one_post_per_text chatty_provider demo_db demo_chunks
               demo_vectors demo_search demo_json_loads demo_json_dumps demo_post
               (WebhookBody (Some "page")
                  [[MessagingEvent "1001" (Some "Where is your office?");
                    MessagingEvent "1001" None];
                   [MessagingEvent "2002" (Some " reset ")]])
               server0)
    as [_ Hposts].
  - reflexivity.
  - vm_compute. reflexivity.
  - exact Hposts.
Defined.



Lemma check_environment_passes_iff_witness :
  check_environment
    (list_to_map
       ((fun k => (k, "x")) <$> ("NGROK_AUTH_TOKEN" :: required_vars)))
  = None.
Proof.
  apply check_environment_passes_iff. intros k Hk. exists "x"%char, EmptyString.
  unfold required_vars in Hk.
  repeat (apply elem_of_cons in Hk as [-> | Hk]; [reflexivity |]).
  by apply elem_of_nil in Hk.
Defined.

Lemma register_webhook_gives_up_witness :
  ∃ evs,
    register_webhook "app" "secret" "verify" dead_network []
    = (RegReturned, [] ++ evs ++ [NetPrint flask_down_msg]) ∧
    length (List.filter is_probe evs) = 20.
Proof.
  destruct (register_webhook_gives_up "app" "secret" "verify" dead_network [])
    as (evs & Hrun & Hn & _); [discriminate |].
  by exists evs.
Defined.

Lemma register_webhook_teardown_status_ignored_witness :
  NetRegister "app|secret" "https://c3.ngrok.io/webhook" "verify"
    ∈ (register_webhook "app" "secret" "verify" live_network []).2.
Proof.
  apply (register_webhook_teardown_status_ignored "app" "secret" "verify"
           live_network [] [NetProbe] "https://c3.ngrok.io" 400); reflexivity.
Defined.
